(** * cadastre: pin status tracking and parcel status resolution

    A shallow embedding of the two pieces of logic of
    [src/components/gallery/GalleryDisplayItem.js]:

    - [GalleryDisplayItem]: the identifier of a media item, the pin state
      derived from the pinning manager, and the preload/timeout race that
      follows every entry into the "pinning" state;
    - [Recent]: the per-parcel status derivation, its chain of contract
      reads, and the final sort by creation block.

    Integers of the source ([BigNumber], block numbers, second and
    millisecond time stamps) are [Z]; strings are [string]; the [Set] of
    failed pins is a [gset string]; a promise that has settled is a value of
    [Promise]. *)

From Stdlib Require Import ZArith Ascii String.
From stdpp Require Import base decidable option list sorting gmap strings.

Local Open Scope Z_scope.

(** ** Host-language helpers *)

Module Js.

(** [strip_prefix p s] is [Some rest] when [s = p ++ rest]. *)
Fixpoint strip_prefix (p s : string) : option string :=
  match p, s with
  | EmptyString, _ => Some s
  | String _ _, EmptyString => None
  | String a p', String b s' =>
      if Ascii.eqb a b then strip_prefix p' s' else None
  end.

(** [String.prototype.replace(pat, rep)] with a string pattern: only the
    first (leftmost) occurrence of [pat] is replaced, wherever it is. The
    replacement is taken literally (it holds no [$] pattern here). *)
Fixpoint replace (pat rep s : string) : string :=
  match strip_prefix pat s with
  | Some rest => rep +:+ rest
  | None =>
      match s with
      | EmptyString => EmptyString
      | String c s' => String c (replace pat rep s')
      end
  end.

(** [occurs pat s]: [pat] is a substring of [s]. *)
Fixpoint occurs (pat s : string) : bool :=
  match strip_prefix pat s with
  | Some _ => true
  | None =>
      match s with
      | EmptyString => false
      | String _ s' => occurs pat s'
      end
  end.

(** A settled promise: fulfilled with a value, or rejected with a reason. *)
Inductive Promise (A : Type) : Type :=
| Fulfilled (a : A)
| Rejected (reason : string).
Arguments Fulfilled {A} a.
Arguments Rejected {A} reason.

(** [p.then(k)]: a rejection skips [k] and propagates down the chain. *)
Definition andThen {A B} (p : Promise A) (k : A -> Promise B) : Promise B :=
  match p with
  | Fulfilled a => k a
  | Rejected r => Rejected r
  end.

(** [Array.prototype.sort(cmp)], as a stable insertion sort driven by the
    sign of [cmp x y]: an element moves in front of [y] only when
    [cmp x y < 0]. *)
Section Sort.
Context {A : Type} (cmp : A -> A -> Z).

Fixpoint insert (x : A) (l : list A) : list A :=
  match l with
  | [] => [x]
  | y :: l' => if cmp x y <? 0 then x :: y :: l' else y :: insert x l'
  end.

Definition sort (l : list A) : list A :=
  fold_left (fun acc x => insert x acc) l [].
End Sort.

End Js.

Notation "'await' x '<-' p ';;' k" := (Js.andThen p (fun x => k))
  (at level 10, x name, p at level 99, k at level 200, only parsing).

(** ** GalleryDisplayItem: the pin status tracker *)

Module Gallery.

Definition STATE_PINNED : Z := 0.
Definition STATE_PINNING : Z := 1.
Definition STATE_FAILED : Z := 2.
Definition STATE_NOT_FOUND : Z := 3.

(** What the component reads of [pinningManager]. *)
Record PinningManager := {
  isPinned : string -> bool;
  failedPins : gset string;
}.

(** What the component reads of [mediaGalleryItemStreamManager]:
    [getStreamId()] (as the string it is printed to) and
    [getStreamContent().contentUrl]. *)
Record StreamManager := {
  getStreamId : string;
  contentUrl : string;
}.

(** [const cid = data.contentUrl.replace("ipfs://", empty)], where
    [empty] is the empty string literal. *)
Definition cid (m : StreamManager) : string :=
  Js.replace "ipfs://" EmptyString (contentUrl m).

(** [const name = `${getStreamId()}-${cid}`] *)
Definition name (m : StreamManager) : string :=
  getStreamId m +:+ "-" +:+ cid m.

(** The body of the first effect: [None] when [pinningManager] is absent
    (the effect returns without setting a state), otherwise the state it
    passes to [setPinState]. *)
Definition observe (pm : option PinningManager) (nm : string) : option Z :=
  match pm with
  | None => None
  | Some m =>
      if isPinned m nm then Some STATE_PINNED
      else if bool_decide (nm ∈ failedPins m) then Some STATE_FAILED
      else Some STATE_PINNING
  end.

(** One call of [triggerPreload]: its own [success] variable, and whether
    the preload promise and the 10000 ms timer are still outstanding. *)
Record Probe := {
  success : bool;
  preloadPending : bool;
  timerPending : bool;
}.

(** [var success = false], preload requested, timer set. *)
Definition freshProbe : Probe :=
  {| success := false; preloadPending := true; timerPending := true |}.

(** The component: [pinState] ([None] is the initial [null]) and the
    probes started so far, oldest first. *)
Record Component := {
  pinState : option Z;
  probes : list Probe;
}.

Definition mount : Component := {| pinState := None; probes := [] |}.

(** [triggerPreload()] (lines 59-76): one more probe. *)
Definition triggerPreload (c : Component) : Component :=
  {| pinState := pinState c; probes := probes c ++ [freshProbe] |}.

(** The second effect (lines 58-81), run after a render in which
    [pinState] has changed. *)
Definition preloadEffect (c : Component) : Component :=
  if bool_decide (pinState c = Some STATE_PINNING) then triggerPreload c
  else c.

(** [setPinState(v)] and the render that follows: setting the state it
    already has changes nothing and re-runs no effect; setting another one
    re-runs the second effect, whose dependency is [pinState]. *)
Definition setPinState (v : Z) (c : Component) : Component :=
  if bool_decide (pinState c = Some v) then c
  else preloadEffect {| pinState := Some v; probes := probes c |}.

Inductive Event :=
| Observed (pm : option PinningManager)  (* the first effect runs *)
| PreloadResolved (i : nat)              (* [.then] callback of probe [i] *)
| PreloadRejected (i : nat)              (* [.catch] callback of probe [i] *)
| TimerFired (i : nat).                  (* timer callback of probe [i] *)

(** The state the timer callback of a probe asks for:
    [if (!success) setPinState(STATE_NOT_FOUND)]. *)
Definition timerCallback (p : Probe) : option Z :=
  if negb (success p) then Some STATE_NOT_FOUND else None.

(** One callback of the component; [None] when the event cannot happen
    (no such probe, or its promise or timer is no longer outstanding). *)
Definition step (nm : string) (c : Component) (e : Event)
  : option Component :=
  match e with
  | Observed pm =>
      match observe pm nm with
      | None => Some c
      | Some v => Some (setPinState v c)
      end
  | PreloadResolved i =>
      match probes c !! i with
      | Some p =>
          if preloadPending p then
            Some {| pinState := pinState c;
                    probes := <[i := {| success := true;
                                        preloadPending := false;
                                        timerPending := timerPending p |}]>
                                (probes c) |}
          else None
      | None => None
      end
  | PreloadRejected i =>
      match probes c !! i with
      | Some p =>
          if preloadPending p then
            Some (setPinState STATE_NOT_FOUND
                    {| pinState := pinState c;
                       probes := <[i := {| success := success p;
                                           preloadPending := false;
                                           timerPending := timerPending p |}]>
                                   (probes c) |})
          else None
      | None => None
      end
  | TimerFired i =>
      match probes c !! i with
      | Some p =>
          if timerPending p then
            let c' := {| pinState := pinState c;
                         probes := <[i := {| success := success p;
                                             preloadPending := preloadPending p;
                                             timerPending := false |}]>
                                     (probes c) |} in
            match timerCallback p with
            | Some v => Some (setPinState v c')
            | None => Some c'
            end
          else None
      | None => None
      end
  end.

(** A sequence of callbacks, in the order the event loop runs them. *)
Fixpoint run (nm : string) (c : Component) (es : list Event)
  : option Component :=
  match es with
  | [] => Some c
  | e :: es' =>
      match step nm c e with
      | Some c' => run nm c' es'
      | None => None
      end
  end.

(** Events of the preload/timeout race, as opposed to observations of the
    pinning manager. *)
Definition isProbeEvent (e : Event) : bool :=
  match e with
  | Observed _ => false
  | _ => true
  end.

(** The probe events that call [setPinState(STATE_NOT_FOUND)]: a rejected
    preload, and a timer that finds [success] unset. *)
Definition forcesNotFound (c : Component) (e : Event) : bool :=
  match e with
  | PreloadRejected _ => true
  | TimerFired i =>
      match probes c !! i with
      | Some p => negb (success p)
      | None => false
      end
  | _ => false
  end.

(** How one probe may change over time: a [success] that is set stays
    set, and a preload that has settled stays settled with the [success]
    it left. *)
Definition evolves (p p' : Probe) : Prop :=
  (success p = true → success p' = true) ∧
  (preloadPending p = false →
     preloadPending p' = false ∧ success p' = success p).

(** While the preload of a probe is outstanding its [success] is still
    unset. *)
Definition unsettledUnset (p : Probe) : Prop :=
  preloadPending p = true → success p = false.

End Gallery.

(** ** Recent: parcel status resolution and ordering *)

Module Recent.

(** Modelled from the spec: [SECONDS_IN_WEEK] is imported from
    [lib/constants], which is not part of the sources at hand; the spec
    calls it "one week (in seconds)". *)
Definition SECONDS_IN_WEEK : Z := 60 * 60 * 24 * 7.

(** The four values [status] is assigned. *)
Definition Valid : string := "Valid".
Definition OutstandingBid : string := "Outstanding Bid".
Definition NeedsTransfer : string := "Needs Transfer".
Definition InForeclosure : string := "In Foreclosure".

(** Modelled from the spec: the types of the rows ([GeoWebParcel], [Bid])
    and of the table entries ([Parcel]) are declared in [./ParcelList], which
    is not part of the sources at hand. The fields are those the code reads
    and writes; the creation block is a number, as the spec has it, and
    [BigNumber.from(...)] and [Number(...)] read the integers held by the
    bid fields. *)
Module Query.
Record Bid := {
  forSalePrice : Z;
  contributionRate : Z;
  timestamp : Z;
}.

Record GeoWebParcel {Coord : Type} := {
  id : string;
  createdAtBlock : Z;
  bboxN : Coord;
  bboxS : Coord;
  bboxE : Coord;
  bboxW : Coord;
  licenseOwner : string;
  licenseDiamond : string;
  currentBid : Bid;
  pendingBid : option Bid;
}.
Arguments GeoWebParcel : clear implicits.
End Query.
Import Query.

(** The entries handed to [ParcelTable] (see the note on [Query]). *)
Record Parcel {Point : Type} := {
  parcelId : string;
  createdAtBlock : Z;
  status : string;
  name : string;
  price : Z;
  center : Point;
}.
Arguments Parcel : clear implicits.

(** The license contract of one parcel: what its two reads settle to. *)
Record LicenseDiamond := {
  shouldBidPeriodEndEarly : Js.Promise bool;
  isPayerBidActive : Js.Promise bool;
}.

(** What [getParcelContent] resolves to, when it is not [null]. *)
Record ParcelContent := {
  content_name : option string;
}.

Section Resolver.
(** [turf.center(turf.bboxPolygon([w, s, e, n])).geometry] is left to the
    geometry library. *)
Context {Coord Point : Type}.
Context (bboxCenter : Coord -> Coord -> Coord -> Coord -> Point).

(** The collaborators of one run of the effect:
    [PCOLicenseDiamondFactory.connect(address, provider)],
    [getParcelContent(registry, geoWebContent, parcelId, licenseOwner)]
    and the value of [Date.now()], in milliseconds, when the callback of
    a parcel reads it. *)
Record Env := {
  connect : string -> LicenseDiamond;
  getParcelContent : string -> string -> Js.Promise (option ParcelContent);
  dateNow : GeoWebParcel Coord -> Z;
}.

(** The locals [status] and [forSalePrice] of one loop iteration. *)
Definition Locals : Type := string * Z.

(** Lines 286-294: [None] is the [continue]. *)
Definition initialStatus (parcel : GeoWebParcel Coord) : option Locals :=
  match pendingBid parcel with
  | None => Some (Valid, forSalePrice (currentBid parcel))
  | Some pb =>
      if contributionRate pb =? 0 then
        Some (Valid, forSalePrice (currentBid parcel))
      else if contributionRate pb >? 0 then
        Some (OutstandingBid, forSalePrice pb)
      else None
  end.

Definition deadline (pb : Bid) : Z := timestamp pb + SECONDS_IN_WEEK.

Definition isPastDeadline (pb : Bid) (now : Z) : bool :=
  deadline pb * 1000 <=? now.

(** Lines 298-308: the callback on [shouldBidPeriodEndEarly()]. *)
Definition onShouldBidPeriodEndEarly (pending : option Bid) (now : Z)
    (early : bool) (st : Locals) : Locals :=
  match pending with
  | Some pb =>
      if contributionRate pb >? 0 then
        if isPastDeadline pb now || early
        then (NeedsTransfer, forSalePrice pb)
        else st
      else st
  | None => st
  end.

(** Lines 310-314: the callback on [isPayerBidActive()]. *)
Definition onIsPayerBidActive (active : bool) (st : Locals) : Locals :=
  if negb active then (InForeclosure, st.2) else st.

(** Lines 324-327: an absent content, an absent name and an empty name
    are all falsy. *)
Definition displayName (content : option ParcelContent) (pid : string)
  : string :=
  match content with
  | Some {| content_name := Some (String c n) |} => String c n
  | _ => "Parcel " +:+ pid
  end.

(** The promise after the first [.then]: the locals after step 2. *)
Definition afterEarlyEnd (env : Env) (parcel : GeoWebParcel Coord)
    (st0 : Locals) : Js.Promise Locals :=
  await early <- shouldBidPeriodEndEarly
                   (connect env (licenseDiamond parcel)) ;;
  Js.Fulfilled
    (onShouldBidPeriodEndEarly (pendingBid parcel) (dateNow env parcel)
       early st0).

(** The promise after the third [.then]: the locals after step 3. *)
Definition afterForeclosure (env : Env) (parcel : GeoWebParcel Coord)
    (st0 : Locals) : Js.Promise Locals :=
  await st1 <- afterEarlyEnd env parcel st0 ;;
  await active <- isPayerBidActive
                    (connect env (licenseDiamond parcel)) ;;
  Js.Fulfilled (onIsPayerBidActive active st1).

(** Lines 296-345: the whole chain, fulfilled with the row it pushes. *)
Definition promiseChain (env : Env) (parcel : GeoWebParcel Coord)
    (st0 : Locals) : Js.Promise (Parcel Point) :=
  await st2 <- afterForeclosure env parcel st0 ;;
  await content <- getParcelContent env (id parcel)
                     (licenseOwner parcel) ;;
  Js.Fulfilled
    {| parcelId := id parcel;
       createdAtBlock := Query.createdAtBlock parcel;
       status := st2.1;
       name := displayName content (id parcel);
       price := st2.2;
       center := bboxCenter (bboxW parcel) (bboxS parcel)
                   (bboxE parcel) (bboxN parcel) |}.

(** One iteration of the [for] loop: the promise it pushes, if any. *)
Definition loopBody (env : Env) (parcel : GeoWebParcel Coord)
  : option (Js.Promise (Parcel Point)) :=
  match initialStatus parcel with
  | None => None
  | Some st0 => Some (promiseChain env parcel st0)
  end.

(** The array [promises] after the loop. *)
Definition promises (env : Env) (data : list (GeoWebParcel Coord))
  : list (Js.Promise (Parcel Point)) :=
  omap (loopBody env) data.

(** Lines 376-382: the comparator never answers [0]. *)
Definition compareParcels (a b : Parcel Point) : Z :=
  if createdAtBlock a >? createdAtBlock b then -1 else 1.

(** Lines 375-385. *)
Definition sortParcels (parcels : list (Parcel Point))
  : list (Parcel Point) :=
  Js.sort compareParcels parcels.

End Resolver.

End Recent.

(** ** Sample data *)

Module Samples.
Import Gallery.

(** Nothing pinned, nothing failed. *)
Definition pinningInProgress : PinningManager :=
  {| isPinned := fun _ => false; failedPins := ∅ |}.

(** Item ["k"] pinned, and still listed among the failed pins. *)
Definition pinnedAndFailed : PinningManager :=
  {| isPinned := fun _ => true; failedPins := {["k"]} |}.

(** Item ["k"] not pinned and listed among the failed pins. *)
Definition pinFailed : PinningManager :=
  {| isPinned := fun _ => false; failedPins := {["k"]} |}.

(** The preload of the first probe succeeds, the item gets pinned. *)
Definition resolvedThenPinned : list Event :=
  [Observed (Some pinningInProgress); PreloadResolved 0%nat;
   Observed (Some pinnedAndFailed)].

(** The preload of the first probe fails, the item gets pinned all the
    same. *)
Definition rejectedThenPinned : list Event :=
  [Observed (Some pinningInProgress); PreloadRejected 0%nat;
   Observed (Some pinnedAndFailed)].

(** The item gets pinned while the first probe is still outstanding. *)
Definition pinnedWhileProbing : list Event :=
  [Observed (Some pinningInProgress); Observed (Some pinnedAndFailed)].

(** A probe whose preload has settled, with the [success] it left and
    whether its timer is still to fire. *)
Definition settledProbe (ok timer : bool) : Probe :=
  {| success := ok; preloadPending := false; timerPending := timer |}.

(** A component that has started one probe. *)
Definition withProbe (v : Z) (p : Probe) : Component :=
  {| pinState := Some v; probes := [p] |}.

Definition httpItem : StreamManager :=
  {| getStreamId := "kjzl6"; contentUrl := "https://bafy" |}.

Import Recent Recent.Query.

Definition bid (price rate time : Z) : Bid :=
  {| forSalePrice := price; contributionRate := rate; timestamp := time |}.

(** A parcel created at block 5, current bid at price 100, with the given
    pending bid. *)
Definition parcelWith (pending : option Bid) : GeoWebParcel Z :=
  {| id := "0x1"; Query.createdAtBlock := 5;
     bboxN := 4; bboxS := 2; bboxE := 3; bboxW := 1;
     licenseOwner := "0xa"; licenseDiamond := "0xd";
     currentBid := bid 100 1 0; pendingBid := pending |}.

Definition corners (w s e n : Z) : Z * Z * Z * Z := (w, s, e, n).

(** Contract reads that answer [early] and [active], no parcel content,
    and a clock that reads [now]. *)
Definition env (early active : bool) (now : Z) : @Env Z :=
  {| connect := fun _ =>
       {| shouldBidPeriodEndEarly := Js.Fulfilled early;
          isPayerBidActive := Js.Fulfilled active |};
     getParcelContent := fun _ _ => Js.Fulfilled None;
     dateNow := fun _ => now |}.

(** A row of the table created at the given block. *)
Definition row (block : Z) : Parcel unit :=
  {| parcelId := "0x1"; Recent.createdAtBlock := block; status := Valid;
     name := "Parcel 0x1"; price := 100; center := tt |}.

End Samples.

(** ** GalleryDisplayItem: what is rendered, and the handlers *)

Module GalleryView.
Import Gallery.

(** The values [pinState] is given: the initial [null] and the four
    constants. *)
Definition pinStates : list (option Z) :=
  [None; Some STATE_PINNED; Some STATE_PINNING; Some STATE_FAILED;
   Some STATE_NOT_FOUND].

(** [pinState == STATE_...]: the initial [null] is loosely equal to no
    number. *)
Definition looseEq (s : option Z) (v : Z) : bool :=
  match s with
  | Some x => x =? v
  | None => false
  end.

(** Line 35; [editing] is [isEditing]. *)
Definition shouldHighlight (isRemoving isHovered editing : bool) : bool :=
  negb isRemoving && (isHovered || editing).

(** The status column: its class, its text, and whether the spinner
    follows the text. *)
Record StatusView := {
  className : string;
  text : string;
  spinner : bool;
}.

(** Lines 89-98; [None] when [statusView] stays undefined. *)
Definition statusView (isRemoving : bool) (s : option Z)
  : option StatusView :=
  if isRemoving then
    Some {| className := "text-info"; text := "Removing"; spinner := true |}
  else if looseEq s STATE_PINNING then
    Some {| className := "text-info"; text := "Pinning"; spinner := true |}
  else if looseEq s STATE_FAILED then
    Some {| className := "text-danger"; text := "Pin Failed";
            spinner := false |}
  else if looseEq s STATE_NOT_FOUND then
    Some {| className := "text-danger"; text := "File Not Found";
            spinner := false |}
  else None.

(** Lines 141-156: the row of buttons is visible when the item is
    highlighted, and within it the "Retrigger Pin" column is displayed
    when the pin has failed. *)
Definition retriggerDisplayed (s : option Z) : bool :=
  looseEq s STATE_FAILED.

Definition retriggerOffered (isRemoving isHovered editing : bool)
    (s : option Z) : bool :=
  shouldHighlight isRemoving isHovered editing && retriggerDisplayed s.




(** [dashFree s]: the character [-] does not occur in [s]. *)
Fixpoint dashFree (s : string) : bool :=
  match s with
  | EmptyString => true
  | String c s' => negb (Ascii.eqb c "-") && dashFree s'
  end.

End GalleryView.

(** ** Recent: the batch *)

Module RecentBatch.
Import Recent Recent.Query.

(** [Promise.all(ps)]: fulfilled with the values, in the order of [ps],
    when every promise of [ps] is fulfilled; [None] is its rejection (with
    the reason of whichever promise is rejected first in time). *)
Fixpoint promiseAll {A} (ps : list (Js.Promise A)) : option (list A) :=
  match ps with
  | [] => Some []
  | Js.Fulfilled a :: ps' =>
      match promiseAll ps' with
      | Some l => Some (a :: l)
      | None => None
      end
  | Js.Rejected _ :: _ => None
  end.

Section Effect.
Context {Coord Point : Type}.
Context (bboxCenter : Coord -> Coord -> Coord -> Coord -> Point).

(** What a run of the effect does to the state [parcels]. *)
Inductive Outcome :=
| Untouched
| SetParcels (rows : list (Parcel Point)).

(** Lines 350-356: the callback on [Promise.all(promises)], with the array
    [_parcels] as the chains have filled it. *)
Definition onAllFulfilled (isMounted : bool)
    (_parcels : list (Parcel Point)) : Outcome :=
  if isMounted then SetParcels (sortParcels _parcels) else Untouched.

(** Lines 256-361. [data] is [None] while the query has no data.
    Every chain pushes its row when it completes, so [_parcels] holds the
    rows in an order the code does not fix: any arrangement of them.
    [isMounted] is the flag as the callback finds it. *)
Definition parcelsEffect (env : Env) (data : option (list (GeoWebParcel Coord)))
    (isMounted : bool) (o : Outcome) : Prop :=
  match data with
  | None => o = Untouched
  | Some [] => o = SetParcels []
  | Some rows =>
      match promiseAll (promises bboxCenter env rows) with
      | None => o = Untouched
      | Some pushed =>
          ∃ _parcels,
            _parcels ≡ₚ pushed ∧ o = onAllFulfilled isMounted _parcels
      end
  end.

End Effect.

(** [a] may stand right before [b] in the table: [b] was not created
    later than [a]. *)
Definition descending {Point : Type} (a b : Parcel Point) : Prop :=
  Recent.createdAtBlock b ≤ Recent.createdAtBlock a.

(** The records that step 1 does not skip. *)
Definition kept {Coord : Type} (data : list (GeoWebParcel Coord))
  : list (GeoWebParcel Coord) :=
  filter (λ parcel, is_Some (initialStatus parcel)) data.

End RecentBatch.

(** ** More sample data *)

Module Scenarios.
Import Recent Recent.Query RecentBatch Samples.

(** As [Samples.env], with a payer-bid read that is rejected. *)
Definition envPayerReadFails (early : bool) (now : Z) : @Env Z :=
  {| connect := fun _ =>
       {| shouldBidPeriodEndEarly := Js.Fulfilled early;
          isPayerBidActive := Js.Rejected "call revert" |};
     getParcelContent := fun _ _ => Js.Fulfilled None;
     dateNow := fun _ => now |}.

(** The row pushed for a parcel of [Samples.parcelWith]. *)
Definition rowOf (st : string) (pr : Z) : Parcel (Z * Z * Z * Z) :=
  {| parcelId := "0x1"; Recent.createdAtBlock := 5; status := st;
     name := "Parcel 0x1"; price := pr; center := (1, 2, 3, 4) |}.

(** A parcel created at the given block, without a pending bid. *)
Definition parcelAt (block : Z) : GeoWebParcel Z :=
  {| id := "0x2"; Query.createdAtBlock := block;
     bboxN := 4; bboxS := 2; bboxE := 3; bboxW := 1;
     licenseOwner := "0xa"; licenseDiamond := "0xd";
     currentBid := bid 100 1 0; pendingBid := None |}.

(** The row pushed for [parcelAt block] under [Samples.env _ true _]. *)
Definition rowAt (block : Z) : Parcel (Z * Z * Z * Z) :=
  {| parcelId := "0x2"; Recent.createdAtBlock := block; status := Valid;
     name := "Parcel 0x2"; price := 100; center := (1, 2, 3, 4) |}.

End Scenarios.

(** ** Facts about the pin status tracker *)

Module GalleryFacts.
Import Gallery Samples.

Lemma pinState_setPinState v c : pinState (setPinState v c) = Some v.
Proof.
  unfold setPinState, preloadEffect. by repeat case_bool_decide.
Qed.

Lemma probes_setPinState v c :
  ∃ l, probes (setPinState v c) = probes c ++ l.
Proof.
  unfold setPinState, preloadEffect.
  repeat case_bool_decide; simpl; eauto; exists []; by rewrite app_nil_r.
Qed.

Lemma probes_setPinState_not_found c :
  probes (setPinState STATE_NOT_FOUND c) = probes c.
Proof.
  unfold setPinState, preloadEffect. by repeat case_bool_decide.
Qed.

Lemma evolves_refl p : evolves p p.
Proof. by split. Qed.

Lemma evolves_trans p q r : evolves p q → evolves q r → evolves p r.
Proof.
  intros [H1 H2] [H3 H4]. split; [by auto|].
  intros Hp. destruct (H2 Hp) as [Hq Hs]. destruct (H4 Hq) as [Hr Hs'].
  split; [done|congruence].
Qed.

Lemma step_probe nm c e c' j p :
  step nm c e = Some c' → probes c !! j = Some p →
  ∃ p', probes c' !! j = Some p' ∧ evolves p p'.
Proof.
  intros Hstep Hj. destruct e as [pm|i|i|i]; simpl in Hstep.
  - exists p. split; [|apply evolves_refl].
    destruct (observe pm nm) as [v|]; simplify_eq; [|done].
    destruct (probes_setPinState v c) as [l ->].
    by apply lookup_app_l_Some.
  - destruct (probes c !! i) as [q|] eqn:Hi; [|done].
    destruct (preloadPending q) eqn:Hq; simplify_eq. simpl.
    destruct (decide (i = j)) as [->|Hne].
    + assert (q = p) as -> by congruence.
      eexists. split.
      * apply list_lookup_insert_eq. by eapply lookup_lt_Some.
      * split; simpl; [done|congruence].
    + exists p. split; [|apply evolves_refl].
      by rewrite list_lookup_insert_ne.
  - destruct (probes c !! i) as [q|] eqn:Hi; [|done].
    destruct (preloadPending q) eqn:Hq; simplify_eq.
    rewrite probes_setPinState_not_found. simpl.
    destruct (decide (i = j)) as [->|Hne].
    + assert (q = p) as -> by congruence.
      eexists. split.
      * apply list_lookup_insert_eq. by eapply lookup_lt_Some.
      * split; simpl; [done|congruence].
    + exists p. split; [|apply evolves_refl].
      by rewrite list_lookup_insert_ne.
  - destruct (probes c !! i) as [q|] eqn:Hi; [|done].
    destruct (timerPending q) eqn:Hq; [|done].
    assert (∃ p', <[i:={| success := success q;
                          preloadPending := preloadPending q;
                          timerPending := false |}]> (probes c) !! j
                  = Some p' ∧ evolves p p') as (p' & Hp' & Hev).
    { destruct (decide (i = j)) as [->|Hne].
      - assert (q = p) as -> by congruence.
        eexists. split.
        + apply list_lookup_insert_eq. by eapply lookup_lt_Some.
        + by split.
      - exists p. split; [|apply evolves_refl].
        by rewrite list_lookup_insert_ne. }
    exists p'. split; [|done].
    destruct (timerCallback q) as [v|]; simplify_eq; [|done].
    match goal with
    | |- probes (setPinState v ?d) !! j = _ =>
        destruct (probes_setPinState v d) as [l ->]
    end.
    by apply lookup_app_l_Some.
Qed.

Lemma run_probe nm es : ∀ c c' j p,
  run nm c es = Some c' → probes c !! j = Some p →
  ∃ p', probes c' !! j = Some p' ∧ evolves p p'.
Proof.
  induction es as [|e es IH]; intros c c' j p Hrun Hj; simpl in Hrun.
  - simplify_eq. exists p. split; [done|apply evolves_refl].
  - destruct (step nm c e) as [c1|] eqn:Hstep; [|done].
    destruct (step_probe _ _ _ _ _ _ Hstep Hj) as (p1 & Hp1 & Hev1).
    destruct (IH _ _ _ _ Hrun Hp1) as (p' & Hp' & Hev').
    exists p'. split; [done|]. by eapply evolves_trans.
Qed.

Lemma setPinState_Forall (P : Probe → Prop) v c :
  P freshProbe → Forall P (probes c) → Forall P (probes (setPinState v c)).
Proof.
  intros Hf Hc. unfold setPinState, preloadEffect.
  repeat case_bool_decide; simpl; [done| |done].
  apply Forall_app. split; [done|]. by constructor.
Qed.

Lemma step_unsettledUnset nm c e c' :
  Forall unsettledUnset (probes c) → step nm c e = Some c' →
  Forall unsettledUnset (probes c').
Proof.
  intros Hc Hstep. assert (unsettledUnset freshProbe) as Hf by done.
  destruct e as [pm|i|i|i]; simpl in Hstep.
  - destruct (observe pm nm); simplify_eq; [|done].
    by apply setPinState_Forall.
  - destruct (probes c !! i) as [q|] eqn:Hi; [|done].
    destruct (preloadPending q); simplify_eq. simpl.
    by apply Forall_insert.
  - destruct (probes c !! i) as [q|] eqn:Hi; [|done].
    destruct (preloadPending q); simplify_eq.
    apply setPinState_Forall; [done|]. simpl. by apply Forall_insert.
  - destruct (probes c !! i) as [q|] eqn:Hi; [|done].
    destruct (timerPending q); [|done].
    assert (unsettledUnset q) as Hq.
    { eapply Forall_lookup_1; eauto. }
    destruct (timerCallback q); simplify_eq;
      [apply setPinState_Forall; [done|]|]; simpl; by apply Forall_insert.
Qed.

Lemma run_unsettledUnset nm es : ∀ c c',
  Forall unsettledUnset (probes c) → run nm c es = Some c' →
  Forall unsettledUnset (probes c').
Proof.
  induction es as [|e es IH]; intros c c' Hc Hrun; simpl in Hrun.
  - by simplify_eq.
  - destruct (step nm c e) as [c1|] eqn:Hstep; [|done].
    eapply IH; [|done]. by eapply step_unsettledUnset.
Qed.

(** C4: with a pinning manager at hand, an observation leaves the pin
    state [STATE_PINNED] when [isPinned(name)] holds, whether or not the
    name is among the failed pins; otherwise [STATE_FAILED] when the name
    is among the failed pins; otherwise [STATE_PINNING]. *)
Theorem pin_state_priority nm c (pm : PinningManager) :
  ∃ c', step nm c (Observed (Some pm)) = Some c' ∧
    (isPinned pm nm = true → pinState c' = Some STATE_PINNED) ∧
    (isPinned pm nm = false → nm ∈ failedPins pm →
       pinState c' = Some STATE_FAILED) ∧
    (isPinned pm nm = false → nm ∉ failedPins pm →
       pinState c' = Some STATE_PINNING).
Proof.
  simpl. destruct (isPinned pm nm) eqn:Hp.
  - eexists. split; [done|]. rewrite pinState_setPinState.
    by repeat split.
  - case_bool_decide; (eexists; split; [done|]);
      rewrite pinState_setPinState; by repeat split.
Qed.

Lemma pin_state_priority_witness :
  (∃ c', step "k" mount (Observed (Some pinnedAndFailed)) = Some c'
         ∧ pinState c' = Some STATE_PINNED) ∧
  (∃ c', step "k" mount (Observed (Some pinFailed)) = Some c'
         ∧ pinState c' = Some STATE_FAILED) ∧
  (∃ c', step "k" mount (Observed (Some pinningInProgress)) = Some c'
         ∧ pinState c' = Some STATE_PINNING).
Proof.
  split; [|split].
  - destruct (pin_state_priority "k" mount pinnedAndFailed)
      as (c' & Hs & H1 & _ & _).
    exists c'. split; [exact Hs|]. apply H1. reflexivity.
  - destruct (pin_state_priority "k" mount pinFailed)
      as (c' & Hs & _ & H2 & _).
    exists c'. split; [exact Hs|]. apply H2; [reflexivity|].
    simpl. apply elem_of_singleton_2. reflexivity.
  - destruct (pin_state_priority "k" mount pinningInProgress)
      as (c' & Hs & _ & _ & H3).
    exists c'. split; [exact Hs|]. apply H3; [reflexivity|].
    simpl. apply not_elem_of_empty.
Defined.

(** C5: when the preload of a probe has resolved, the timer of that probe,
    whenever it fires afterwards, changes neither the pin state nor the
    probes (apart from marking itself as fired). *)
Theorem resolved_preload_disarms_timer nm c i c1 mid c2 c3 :
  step nm c (PreloadResolved i) = Some c1 →
  run nm c1 mid = Some c2 →
  step nm c2 (TimerFired i) = Some c3 →
  pinState c3 = pinState c2 ∧ length (probes c3) = length (probes c2).
Proof.
  intros Hres Hmid Hfire.
  assert (∃ p1, probes c1 !! i = Some p1 ∧ success p1 = true)
    as (p1 & Hp1 & Hs1).
  { simpl in Hres. destruct (probes c !! i) as [q|] eqn:Hi; [|done].
    destruct (preloadPending q); simplify_eq. simpl.
    eexists. split.
    - apply list_lookup_insert_eq. by eapply lookup_lt_Some.
    - reflexivity. }
  destruct (run_probe _ _ _ _ _ _ Hmid Hp1) as (p2 & Hp2 & [Hs2 _]).
  simpl in Hfire. rewrite Hp2 in Hfire.
  destruct (timerPending p2); [|done].
  unfold timerCallback in Hfire. rewrite (Hs2 Hs1) in Hfire.
  simpl in Hfire. simplify_eq. simpl. by rewrite length_insert.
Qed.

Lemma resolved_preload_disarms_timer_witness :
  run "k" mount resolvedThenPinned
    = Some (withProbe STATE_PINNED (settledProbe true true)) ∧
  step "k" (withProbe STATE_PINNED (settledProbe true true))
    (TimerFired 0%nat)
    = Some (withProbe STATE_PINNED (settledProbe true false)) ∧
  pinState (withProbe STATE_PINNED (settledProbe true false))
    = pinState (withProbe STATE_PINNED (settledProbe true true)) ∧
  length (probes (withProbe STATE_PINNED (settledProbe true false)))
    = length (probes (withProbe STATE_PINNED (settledProbe true true))).
Proof.
  split; [vm_compute; reflexivity|]. split; [vm_compute; reflexivity|].
  apply (resolved_preload_disarms_timer "k"
           (withProbe STATE_PINNING freshProbe) 0%nat
           (withProbe STATE_PINNING (settledProbe true true))
           [Observed (Some pinnedAndFailed)]
           (withProbe STATE_PINNED (settledProbe true true))
           (withProbe STATE_PINNED (settledProbe true false)));
    vm_compute; reflexivity.
Defined.

(** C6, as stated, fails: the preload of the first probe is rejected
    (state [STATE_NOT_FOUND]), the item is then observed pinned (state
    [STATE_PINNED]), and the timer of that same probe, finding [success]
    unset, sets [STATE_NOT_FOUND] once more. *)
Lemma rejection_leaves_timer_armed :
  run "k" mount [Observed (Some pinningInProgress);
                 PreloadRejected 0%nat]
    = Some (withProbe STATE_NOT_FOUND
              (settledProbe false true)) ∧
  run "k" mount rejectedThenPinned
    = Some (withProbe STATE_PINNED
              (settledProbe false true)) ∧
  timerCallback (settledProbe false true) = Some STATE_NOT_FOUND ∧
  step "k" (withProbe STATE_PINNED (settledProbe false true))
    (TimerFired 0%nat)
    = Some (withProbe STATE_NOT_FOUND
              (settledProbe false false)).
Proof. repeat split; vm_compute; reflexivity. Qed.

(** C6, amended: in a run of the component, the rejection of a preload
    sets [STATE_NOT_FOUND] at once; it leaves [success] unset, so the timer
    of that probe is not held back and, when it fires, sets
    [STATE_NOT_FOUND] again, whatever the state has become. *)
Theorem rejected_preload_sets_not_found nm pre c i c1 mid c2 c3 :
  run nm mount pre = Some c →
  step nm c (PreloadRejected i) = Some c1 →
  pinState c1 = Some STATE_NOT_FOUND ∧
  (run nm c1 mid = Some c2 → step nm c2 (TimerFired i) = Some c3 →
     pinState c3 = Some STATE_NOT_FOUND).
Proof.
  intros Hpre Hrej.
  assert (Forall unsettledUnset (probes c)) as Hwf.
  { eapply run_unsettledUnset; [|exact Hpre]. constructor. }
  simpl in Hrej. destruct (probes c !! i) as [q|] eqn:Hi; [|done].
  destruct (preloadPending q) eqn:Hq; [|done].
  assert (success q = false) as Hsq.
  { by apply (Forall_lookup_1 _ _ _ _ Hwf Hi). }
  injection Hrej as <-. split; [apply pinState_setPinState|].
  intros Hmid Hfire.
  assert (∃ p1, probes (setPinState STATE_NOT_FOUND
                 {| pinState := pinState c;
                    probes := <[i:={| success := success q;
                                      preloadPending := false;
                                      timerPending := timerPending q |}]>
                                (probes c) |}) !! i = Some p1
                ∧ preloadPending p1 = false ∧ success p1 = false)
    as (p1 & Hp1 & Hpp1 & Hs1).
  { rewrite probes_setPinState_not_found. simpl. eexists. split.
    - apply list_lookup_insert_eq. by eapply lookup_lt_Some.
    - by split. }
  destruct (run_probe _ _ _ _ _ _ Hmid Hp1) as (p2 & Hp2 & [_ Hev]).
  destruct (Hev Hpp1) as [_ Hs2].
  simpl in Hfire. rewrite Hp2 in Hfire.
  destruct (timerPending p2); [|done].
  unfold timerCallback in Hfire. rewrite Hs2, Hs1 in Hfire.
  simpl in Hfire. injection Hfire as <-. apply pinState_setPinState.
Qed.

Lemma rejected_preload_sets_not_found_witness :
  pinState (withProbe STATE_NOT_FOUND
              (settledProbe false true)) = Some STATE_NOT_FOUND ∧
  pinState (withProbe STATE_NOT_FOUND
              (settledProbe false false)) = Some STATE_NOT_FOUND.
Proof.
  destruct (rejected_preload_sets_not_found "k"
              [Observed (Some pinningInProgress)]
              (withProbe STATE_PINNING freshProbe) 0%nat
              (withProbe STATE_NOT_FOUND
                 (settledProbe false true))
              [Observed (Some pinnedAndFailed)]
              (withProbe STATE_PINNED
                 (settledProbe false true))
              (withProbe STATE_NOT_FOUND
                 (settledProbe false false)))
    as [H1 H2]; [vm_compute; reflexivity ..|].
  split; [exact H1|]. apply H2; vm_compute; reflexivity.
Defined.

(** C7, as stated, fails: the item is observed pinned while its first
    probe is outstanding, and either completion of that probe (the timer
    firing, the preload being rejected) then replaces [STATE_PINNED] by
    [STATE_NOT_FOUND]. *)
Lemma pinned_overridden_by_pending_probe :
  run "k" mount pinnedWhileProbing
    = Some (withProbe STATE_PINNED freshProbe) ∧
  (pinState <$> step "k" (withProbe STATE_PINNED freshProbe)
                  (TimerFired 0%nat)) = Some (Some STATE_NOT_FOUND) ∧
  (pinState <$> step "k" (withProbe STATE_PINNED freshProbe)
                  (PreloadRejected 0%nat)) = Some (Some STATE_NOT_FOUND).
Proof. repeat split; vm_compute; reflexivity. Qed.

(** C7, amended: a probe event either leaves the pin state as it is (a
    resolved preload; a timer whose probe has [success] set) or sets
    [STATE_NOT_FOUND] (a rejected preload; a timer whose probe has
    [success] unset), whatever the state was. So [STATE_NOT_FOUND] is kept
    by every probe event, and the other states are kept up to a forced
    [STATE_NOT_FOUND]. *)
Theorem probe_event_keeps_or_forces_not_found nm c e c' :
  isProbeEvent e = true →
  step nm c e = Some c' →
  pinState c' =
    (if forcesNotFound c e then Some STATE_NOT_FOUND else pinState c) ∧
  (pinState c = Some STATE_NOT_FOUND → pinState c' = Some STATE_NOT_FOUND).
Proof.
  intros He Hstep.
  assert (pinState c' =
    (if forcesNotFound c e then Some STATE_NOT_FOUND else pinState c)) as H.
  { destruct e as [pm|i|i|i]; [done|..]; simpl in *;
      destruct (probes c !! i) as [q|] eqn:Hi; try done.
    - destruct (preloadPending q); by simplify_eq.
    - destruct (preloadPending q); simplify_eq.
      apply pinState_setPinState.
    - destruct (timerPending q); [|done]. unfold timerCallback in Hstep.
      destruct (success q); simpl in *; simplify_eq; [done|].
      apply pinState_setPinState. }
  split; [done|]. intros Hnf. rewrite H. by destruct (forcesNotFound c e).
Qed.

Lemma probe_event_keeps_or_forces_not_found_witness :
  pinState (withProbe STATE_NOT_FOUND
              (settledProbe false false))
    = (if forcesNotFound
            (withProbe STATE_NOT_FOUND
               (settledProbe false true)) (TimerFired 0%nat)
       then Some STATE_NOT_FOUND
       else pinState (withProbe STATE_NOT_FOUND
                        (settledProbe false true))) ∧
  pinState (withProbe STATE_NOT_FOUND
              (settledProbe false false)) = Some STATE_NOT_FOUND.
Proof.
  destruct (probe_event_keeps_or_forces_not_found "k"
              (withProbe STATE_NOT_FOUND
                 (settledProbe false true))
              (TimerFired 0%nat)
              (withProbe STATE_NOT_FOUND
                 (settledProbe false false)))
    as [H1 H2]; [reflexivity | vm_compute; reflexivity |].
  split; [exact H1|]. apply H2. reflexivity.
Defined.

Lemma replace_absent pat rep s :
  Js.occurs pat s = false → Js.replace pat rep s = s.
Proof.
  induction s as [|a s IH]; simpl.
  - by destruct (Js.strip_prefix pat EmptyString).
  - destruct (Js.strip_prefix pat (String a s)); [done|].
    intros H. by rewrite IH.
Qed.

(** C9, as stated, fails: a scheme other than [ipfs] stays in the
    identifier. *)
Lemma http_scheme_not_stripped :
  name httpItem = "kjzl6-https://bafy" ∧
  name httpItem ≠ "kjzl6-bafy".
Proof. split; [reflexivity|discriminate]. Qed.

(** C9, amended: the identifier is the stream id, a dash and the content
    URL; a URL of the form [ipfs://<cid>] loses its [ipfs://] prefix, and a
    URL in which [ipfs://] does not occur is taken whole. *)
Theorem name_strips_ipfs_prefix (sid rest : string) :
  name {| getStreamId := sid; contentUrl := "ipfs://" +:+ rest |}
    = sid +:+ "-" +:+ rest ∧
  (∀ url, Js.occurs "ipfs://" url = false →
     name {| getStreamId := sid; contentUrl := url |}
       = sid +:+ "-" +:+ url).
Proof.
  split; [reflexivity|]. intros url Hurl. unfold name, cid. simpl.
  by rewrite replace_absent.
Qed.

Lemma name_strips_ipfs_prefix_witness :
  name {| getStreamId := "kjzl6"; contentUrl := "ipfs://bafy" |}
    = "kjzl6-bafy" ∧
  name httpItem = "kjzl6-https://bafy".
Proof.
  destruct (name_strips_ipfs_prefix "kjzl6" "bafy") as [H1 H2].
  split; [exact H1|]. apply (H2 "https://bafy"). reflexivity.
Defined.

End GalleryFacts.

(** ** Facts about the sort of the host language *)

Module JsFacts.

Section Sort.
Context {A : Type} (cmp : A → A → Z) (R : relation A).
(** [R x y]: [x] may stand right before [y]. The comparator decides it
    one way or the other. *)
Hypothesis cmp_neg : ∀ x y, cmp x y < 0 → R x y.
Hypothesis cmp_nonneg : ∀ x y, 0 ≤ cmp x y → R y x.

Lemma insert_Permutation x l : Js.insert cmp x l ≡ₚ x :: l.
Proof.
  induction l as [|y l IH]; simpl; [done|].
  destruct (cmp x y <? 0); [done|].
  rewrite IH. apply Permutation_swap.
Qed.

Lemma sort_from_Permutation l : ∀ acc,
  fold_left (λ acc x, Js.insert cmp x acc) l acc ≡ₚ acc ++ l.
Proof.
  induction l as [|x l IH]; intros acc; simpl.
  - by rewrite app_nil_r.
  - rewrite IH, insert_Permutation. simpl. apply Permutation_middle.
Qed.

Lemma sort_Permutation l : Js.sort cmp l ≡ₚ l.
Proof. unfold Js.sort. by rewrite sort_from_Permutation. Qed.

Lemma insert_HdRel z x l :
  R z x → HdRel R z l → HdRel R z (Js.insert cmp x l).
Proof.
  intros Hzx Hzl. destruct l as [|y l]; simpl.
  - by constructor.
  - destruct (cmp x y <? 0); constructor; [done|].
    by inversion Hzl.
Qed.

Lemma insert_Sorted x l : Sorted R l → Sorted R (Js.insert cmp x l).
Proof.
  induction 1 as [|y l Hl IH Hy]; simpl.
  - by repeat constructor.
  - destruct (Z.ltb_spec (cmp x y) 0) as [Hlt|Hge].
    + constructor; [by constructor|]. constructor. by apply cmp_neg.
    + constructor; [done|]. apply insert_HdRel; [|done].
      by apply cmp_nonneg.
Qed.

Lemma sort_from_Sorted l : ∀ acc,
  Sorted R acc → Sorted R (fold_left (λ acc x, Js.insert cmp x acc) l acc).
Proof.
  induction l as [|x l IH]; intros acc Hacc; simpl; [done|].
  apply IH. by apply insert_Sorted.
Qed.

Lemma sort_Sorted l : Sorted R (Js.sort cmp l).
Proof. apply sort_from_Sorted. constructor. Qed.
End Sort.

End JsFacts.

(** ** Facts about the parcel status resolution *)

Module RecentFacts.
Import Recent Recent.Query.

Section Resolver.
Context {Coord Point : Type}.
Context (bboxCenter : Coord → Coord → Coord → Coord → Point).
Implicit Types (parcel : GeoWebParcel Coord) (env : @Env Coord).
Implicit Types (st : Locals) (p : Parcel Point).

Ltac case_rate pb :=
  destruct (Z.eqb_spec (contributionRate pb) 0);
  [|destruct (Z.gtb_spec (contributionRate pb) 0)].

(** The two ways out of step 1 with a status. *)
Lemma initialStatus_Some parcel st :
  initialStatus parcel = Some st →
  (st = (Valid, forSalePrice (currentBid parcel)) ∧
   ∀ pb, pendingBid parcel = Some pb → contributionRate pb = 0) ∨
  (∃ pb, pendingBid parcel = Some pb ∧ 0 < contributionRate pb ∧
         st = (OutstandingBid, forSalePrice pb)).
Proof.
  unfold initialStatus. destruct (pendingBid parcel) as [pb|].
  - case_rate pb; intros ?; simplify_eq.
    + left. split; [done|]. by intros ? [= <-].
    + right. by exists pb.
  - intros [= <-]. left. by split.
Qed.

(** Step 2 leaves alone a parcel without a pending bid of positive
    contribution rate. *)
Lemma onShouldBidPeriodEndEarly_idle pending now early st :
  (∀ pb, pending = Some pb → contributionRate pb ≤ 0) →
  onShouldBidPeriodEndEarly pending now early st = st.
Proof.
  intros Hidle. destruct pending as [pb|]; [|done]. simpl.
  specialize (Hidle pb eq_refl).
  by destruct (Z.gtb_spec (contributionRate pb) 0); [lia|].
Qed.

(** A fulfilled chain has had its three reads fulfilled, and the row
    it pushes is built from their answers. *)
Lemma loopBody_Fulfilled env parcel p :
  loopBody bboxCenter env parcel = Some (Js.Fulfilled p) →
  ∃ st0 early active content,
    initialStatus parcel = Some st0 ∧
    shouldBidPeriodEndEarly (connect env (licenseDiamond parcel))
      = Js.Fulfilled early ∧
    isPayerBidActive (connect env (licenseDiamond parcel))
      = Js.Fulfilled active ∧
    getParcelContent env (id parcel) (licenseOwner parcel)
      = Js.Fulfilled content ∧
    afterEarlyEnd env parcel st0
      = Js.Fulfilled (onShouldBidPeriodEndEarly (pendingBid parcel)
                        (dateNow env parcel) early st0) ∧
    status p = (onIsPayerBidActive active
                  (onShouldBidPeriodEndEarly (pendingBid parcel)
                     (dateNow env parcel) early st0)).1 ∧
    price p = (onShouldBidPeriodEndEarly (pendingBid parcel)
                 (dateNow env parcel) early st0).2.
Proof.
  unfold loopBody, promiseChain, afterForeclosure, afterEarlyEnd.
  destruct (initialStatus parcel) as [st0|]; [|done].
  destruct (shouldBidPeriodEndEarly _) as [early|]; [|done].
  destruct (isPayerBidActive _) as [active|]; [|done].
  destruct (getParcelContent _ _ _) as [content|]; [|done].
  simpl. intros [= <-]. exists st0, early, active, content.
  repeat split. simpl. unfold onIsPayerBidActive.
  by destruct (negb active).
Qed.

(** When the three reads are fulfilled, so is the chain. *)
Lemma loopBody_reads env parcel st0 early active content :
  initialStatus parcel = Some st0 →
  shouldBidPeriodEndEarly (connect env (licenseDiamond parcel))
    = Js.Fulfilled early →
  isPayerBidActive (connect env (licenseDiamond parcel))
    = Js.Fulfilled active →
  getParcelContent env (id parcel) (licenseOwner parcel)
    = Js.Fulfilled content →
  ∃ p, loopBody bboxCenter env parcel = Some (Js.Fulfilled p).
Proof.
  intros H0 H1 H2 H3.
  unfold loopBody, promiseChain, afterForeclosure, afterEarlyEnd.
  rewrite H0, H1. simpl. rewrite H2. simpl. rewrite H3. simpl. eauto.
Qed.

(** C1: step 1 gives [Valid] with the price of the current bid when
    there is no pending bid or its contribution rate is zero,
    [OutstandingBid] with the price of the pending bid when that rate is
    positive, and otherwise skips the parcel: the loop pushes no promise
    for it, so the batch holds neither a row nor a rejection of it. *)
Theorem initial_status_by_bid_shape env parcel :
  (pendingBid parcel = None ∨
   (∃ pb, pendingBid parcel = Some pb ∧ contributionRate pb = 0) →
   initialStatus parcel
     = Some (Valid, forSalePrice (currentBid parcel))) ∧
  (∀ pb, pendingBid parcel = Some pb → 0 < contributionRate pb →
   initialStatus parcel = Some (OutstandingBid, forSalePrice pb)) ∧
  (∀ pb, pendingBid parcel = Some pb →
   contributionRate pb ≠ 0 → ¬ 0 < contributionRate pb →
   initialStatus parcel = None ∧
   loopBody bboxCenter env parcel = None ∧
   ∀ rest, promises bboxCenter env (parcel :: rest)
           = promises bboxCenter env rest).
Proof.
  split; [|split].
  - unfold initialStatus.
    intros [H|(pb & H & Hpb)]; rewrite H; [done|]. by rewrite Hpb.
  - intros pb H Hpb. unfold initialStatus. rewrite H.
    case_rate pb; [lia|done|lia].
  - intros pb H Hne Hle.
    assert (initialStatus parcel = None) as Hskip.
    { unfold initialStatus. rewrite H. by case_rate pb. }
    split; [done|]. unfold promises, loopBody.
    split; [by rewrite Hskip|]. intros rest. simpl. by rewrite Hskip.
Qed.

(** C2: with the early-end read fulfilled, a parcel whose pending bid has
    a positive contribution rate becomes [NeedsTransfer] at the price of
    the pending bid when its deadline (time stamp plus one week, in
    seconds) is not after the clock (in milliseconds) or the read
    answers [true], and stays as it is otherwise; a parcel with no such
    pending bid stays as it is. *)
Theorem early_end_override env parcel st0 early :
  shouldBidPeriodEndEarly (connect env (licenseDiamond parcel))
    = Js.Fulfilled early →
  (∀ pb, pendingBid parcel = Some pb → 0 < contributionRate pb →
     deadline pb = timestamp pb + 604800 ∧
     (deadline pb * 1000 ≤ dateNow env parcel ∨ early = true →
      afterEarlyEnd env parcel st0
        = Js.Fulfilled (NeedsTransfer, forSalePrice pb)) ∧
     (dateNow env parcel < deadline pb * 1000 → early = false →
      afterEarlyEnd env parcel st0 = Js.Fulfilled st0)) ∧
  ((∀ pb, pendingBid parcel = Some pb → contributionRate pb ≤ 0) →
     afterEarlyEnd env parcel st0 = Js.Fulfilled st0).
Proof.
  intros Hread. unfold afterEarlyEnd. rewrite Hread. simpl. split.
  - unfold onShouldBidPeriodEndEarly, isPastDeadline. intros pb -> Hpb.
    destruct (Z.gtb_spec (contributionRate pb) 0); [|lia].
    split; [done|]. split.
    + intros [Hd| ->].
      * by destruct (Z.leb_spec (deadline pb * 1000) (dateNow env parcel));
          [|lia].
      * by rewrite orb_true_r.
    + intros Hd ->.
      by destruct (Z.leb_spec (deadline pb * 1000) (dateNow env parcel));
        [lia|].
  - intros Hidle.
    by rewrite (onShouldBidPeriodEndEarly_idle _ _ _ _ Hidle).
Qed.

(** C3: when the payer-bid read answers [false], every row the chain
    pushes has status [InForeclosure], whatever the bids and whatever
    steps 1 and 2 assigned; and the chain does push a row once the other
    two reads are fulfilled. *)
Theorem foreclosure_overrides_status env parcel :
  isPayerBidActive (connect env (licenseDiamond parcel))
    = Js.Fulfilled false →
  (∀ p, loopBody bboxCenter env parcel = Some (Js.Fulfilled p) →
     status p = InForeclosure) ∧
  (∀ st0 early content,
     initialStatus parcel = Some st0 →
     shouldBidPeriodEndEarly (connect env (licenseDiamond parcel))
       = Js.Fulfilled early →
     getParcelContent env (id parcel) (licenseOwner parcel)
       = Js.Fulfilled content →
     ∃ p, loopBody bboxCenter env parcel = Some (Js.Fulfilled p) ∧
          status p = InForeclosure).
Proof.
  intros Hactive.
  assert (∀ p, loopBody bboxCenter env parcel = Some (Js.Fulfilled p) →
               status p = InForeclosure) as Hall.
  { intros p Hp.
    destruct (loopBody_Fulfilled _ _ _ Hp)
      as (st0 & early & active & content & _ & _ & Ha & _ & _ & Hs & _).
    rewrite Hactive in Ha. injection Ha as <-. by rewrite Hs. }
  split; [done|]. intros st0 early content H0 H1 H3.
  destruct (loopBody_reads _ _ _ _ _ _ H0 H1 Hactive H3) as [p Hp].
  exists p. split; [done|]. by apply Hall.
Qed.

(** C10: a row pushed with status [InForeclosure] carries the price that
    steps 1 and 2 left: the price of the current bid when step 1 chose
    [Valid], the price of the pending bid when step 1 chose
    [OutstandingBid] or step 2 chose [NeedsTransfer]. *)
Theorem foreclosure_keeps_price env parcel p :
  loopBody bboxCenter env parcel = Some (Js.Fulfilled p) →
  status p = InForeclosure →
  ∃ st0 st1,
    initialStatus parcel = Some st0 ∧
    afterEarlyEnd env parcel st0 = Js.Fulfilled st1 ∧
    price p = st1.2 ∧
    (st0.1 = Valid → price p = forSalePrice (currentBid parcel)) ∧
    (st0.1 = OutstandingBid ∨ st1.1 = NeedsTransfer →
     ∃ pb, pendingBid parcel = Some pb ∧ price p = forSalePrice pb).
Proof.
  intros Hp _.
  destruct (loopBody_Fulfilled _ _ _ Hp)
    as (st0 & early & active & content & H0 & _ & _ & _ & H2 & _ & Hprice).
  exists st0. eexists. split; [done|]. split; [exact H2|].
  split; [done|]. rewrite Hprice. clear Hprice H2 Hp.
  destruct (initialStatus_Some _ _ H0)
    as [[-> Hzero]|(pb & Hpb & Hrate & ->)].
  - rewrite onShouldBidPeriodEndEarly_idle
      by (intros pb Hpb; rewrite (Hzero pb Hpb); lia).
    split; [done|]. by intros [?|?].
  - unfold onShouldBidPeriodEndEarly. rewrite Hpb.
    destruct (Z.gtb_spec (contributionRate pb) 0); [|lia].
    split; [done|]. intros _. exists pb. split; [done|].
    by destruct (isPastDeadline pb (dateNow env parcel) || early).
Qed.

(** C8: the sort returns a rearrangement of its argument in which no row
    is followed by a row of a later creation block; rows of blocks 5, 9
    and 1 come out as 9, 5, 1. *)
Theorem sortParcels_descending (parcels : list (Parcel Point)) :
  sortParcels parcels ≡ₚ parcels ∧
  Sorted (λ a b, Recent.createdAtBlock b ≤ Recent.createdAtBlock a)
    (sortParcels parcels) ∧
  (∀ a b c : Parcel Point,
     Recent.createdAtBlock a = 5 → Recent.createdAtBlock b = 9 →
     Recent.createdAtBlock c = 1 →
     sortParcels [a; b; c] = [b; a; c]).
Proof.
  split; [apply JsFacts.sort_Permutation|]. split.
  - apply JsFacts.sort_Sorted; intros x y; unfold compareParcels;
      destruct (Z.gtb_spec (Recent.createdAtBlock x)
                  (Recent.createdAtBlock y)); lia.
  - intros [] [] [] Ha Hb Hc. simpl in *. by subst.
Qed.

End Resolver.

Import Samples.

Lemma initial_status_by_bid_shape_witness :
  initialStatus (parcelWith None) = Some (Valid, 100) ∧
  initialStatus (parcelWith (Some (bid 7 0 10))) = Some (Valid, 100) ∧
  initialStatus (parcelWith (Some (bid 7 5 10)))
    = Some (OutstandingBid, 7) ∧
  loopBody corners (env false true 0) (parcelWith (Some (bid 7 (-1) 10)))
    = None.
Proof.
  split; [|split; [|split]].
  - apply (initial_status_by_bid_shape corners (env false true 0)
             (parcelWith None)). left. reflexivity.
  - apply (initial_status_by_bid_shape corners (env false true 0)
             (parcelWith (Some (bid 7 0 10)))).
    right. exists (bid 7 0 10). split; reflexivity.
  - destruct (initial_status_by_bid_shape corners (env false true 0)
                (parcelWith (Some (bid 7 5 10)))) as (_ & H & _).
    apply (H (bid 7 5 10)); [reflexivity|simpl; lia].
  - destruct (initial_status_by_bid_shape corners (env false true 0)
                (parcelWith (Some (bid 7 (-1) 10)))) as (_ & _ & H).
    apply (H (bid 7 (-1) 10)); [reflexivity|simpl; lia..].
Defined.

Lemma early_end_override_witness :
  afterEarlyEnd (env true true 0) (parcelWith (Some (bid 7 5 10)))
    (OutstandingBid, 7) = Js.Fulfilled (NeedsTransfer, 7) ∧
  afterEarlyEnd (env false true 604810000) (parcelWith (Some (bid 7 5 10)))
    (OutstandingBid, 7) = Js.Fulfilled (NeedsTransfer, 7) ∧
  afterEarlyEnd (env false true 604809999) (parcelWith (Some (bid 7 5 10)))
    (OutstandingBid, 7) = Js.Fulfilled (OutstandingBid, 7) ∧
  afterEarlyEnd (env true true 0) (parcelWith None) (Valid, 100)
    = Js.Fulfilled (Valid, 100).
Proof.
  split; [|split; [|split]].
  - destruct (early_end_override (env true true 0)
                (parcelWith (Some (bid 7 5 10))) (OutstandingBid, 7) true
                eq_refl) as [H _].
    destruct (H (bid 7 5 10)) as (_ & H1 & _);
      [reflexivity|simpl; lia|]. apply H1. right. reflexivity.
  - destruct (early_end_override (env false true 604810000)
                (parcelWith (Some (bid 7 5 10))) (OutstandingBid, 7) false
                eq_refl) as [H _].
    destruct (H (bid 7 5 10)) as (_ & H1 & _);
      [reflexivity|simpl; lia|]. apply H1. left. vm_compute. discriminate.
  - destruct (early_end_override (env false true 604809999)
                (parcelWith (Some (bid 7 5 10))) (OutstandingBid, 7) false
                eq_refl) as [H _].
    destruct (H (bid 7 5 10)) as (_ & _ & H2);
      [reflexivity|simpl; lia|]. apply H2; reflexivity.
  - destruct (early_end_override (env true true 0) (parcelWith None)
                (Valid, 100) true eq_refl) as [_ H].
    apply H. intros pb Hpb. discriminate Hpb.
Defined.

Lemma foreclosure_overrides_status_witness :
  ∃ p, loopBody corners (env true false 0)
         (parcelWith (Some (bid 7 5 10))) = Some (Js.Fulfilled p) ∧
       status p = InForeclosure.
Proof.
  destruct (foreclosure_overrides_status corners (env true false 0)
              (parcelWith (Some (bid 7 5 10))) eq_refl) as [_ H].
  apply (H (OutstandingBid, 7) true None); reflexivity.
Defined.

Lemma foreclosure_keeps_price_witness :
  ∃ pb, pendingBid (parcelWith (Some (bid 7 5 10))) = Some pb ∧
        7 = forSalePrice pb.
Proof.
  destruct (foreclosure_keeps_price corners (env true false 0)
              (parcelWith (Some (bid 7 5 10)))
              {| parcelId := "0x1"; Recent.createdAtBlock := 5;
                 status := InForeclosure; name := "Parcel 0x1";
                 price := 7; center := (1, 2, 3, 4) |}
              eq_refl eq_refl)
    as (st0 & st1 & H0 & _ & _ & _ & H).
  apply H. left. vm_compute in H0. injection H0 as <-. reflexivity.
Defined.

Lemma sortParcels_descending_witness :
  sortParcels [row 5; row 9; row 1] = [row 9; row 5; row 1].
Proof.
  destruct (sortParcels_descending [row 5; row 9; row 1]) as (_ & _ & H).
  apply H; reflexivity.
Defined.

End RecentFacts.

(** ** Further facts about the pin status tracker *)

Module TrackerFacts.
Import Gallery GalleryView Samples.

(** [setPinState] starts a probe exactly when it moves the state to
    [STATE_PINNING] from another one. *)
Lemma setPinState_probes v c :
  probes (setPinState v c)
    = probes c ++
      (if bool_decide (pinState c ≠ Some v ∧ v = STATE_PINNING)
       then [freshProbe] else []).
Proof.
  unfold setPinState, preloadEffect, triggerPreload.
  repeat case_bool_decide; simpl in *; rewrite ?app_nil_r; try done.
  all: exfalso; intuition congruence.
Qed.

(** A probe event keeps the number of probes, and keeps the pin state or
    sets [STATE_NOT_FOUND]. *)
Lemma probe_event_shape nm c e c' :
  step nm c e = Some c' → isProbeEvent e = true →
  length (probes c') = length (probes c) ∧
  (pinState c' = pinState c ∨ pinState c' = Some STATE_NOT_FOUND).
Proof.
  intros Hstep He. destruct e as [pm|i|i|i]; [done|..]; simpl in Hstep;
    destruct (probes c !! i) as [q|]; try done.
  - destruct (preloadPending q); simplify_eq. simpl.
    split; [by rewrite length_insert|by left].
  - destruct (preloadPending q); simplify_eq.
    rewrite GalleryFacts.probes_setPinState_not_found,
      GalleryFacts.pinState_setPinState. simpl.
    split; [by rewrite length_insert|by right].
  - destruct (timerPending q); [|done]. unfold timerCallback in Hstep.
    destruct (success q); simpl in Hstep; simplify_eq.
    + simpl. split; [by rewrite length_insert|by left].
    + rewrite GalleryFacts.probes_setPinState_not_found,
        GalleryFacts.pinState_setPinState. simpl.
      split; [by rewrite length_insert|by right].
Qed.

Lemma step_pinState_is_Some nm c e c' :
  step nm c e = Some c' → is_Some (pinState c) → is_Some (pinState c').
Proof.
  intros Hstep Hc. destruct e as [pm|i|i|i].
  - simpl in Hstep. destruct (observe pm nm); simplify_eq; [|done].
    by rewrite GalleryFacts.pinState_setPinState.
  - destruct (probe_event_shape _ _ _ _ Hstep eq_refl) as [_ [->| ->]]; done.
  - destruct (probe_event_shape _ _ _ _ Hstep eq_refl) as [_ [->| ->]]; done.
  - destruct (probe_event_shape _ _ _ _ Hstep eq_refl) as [_ [->| ->]]; done.
Qed.

Lemma run_pinState_is_Some nm es : ∀ c c',
  run nm c es = Some c' → is_Some (pinState c) → is_Some (pinState c').
Proof.
  induction es as [|e es IH]; intros c c' Hrun Hc; simpl in Hrun.
  - by simplify_eq.
  - destruct (step nm c e) as [c1|] eqn:Hstep; [|done].
    eapply IH; [done|]. by eapply step_pinState_is_Some.
Qed.

Lemma step_pinStates nm c e c' :
  step nm c e = Some c' → pinState c ∈ pinStates → pinState c' ∈ pinStates.
Proof.
  intros Hstep Hc. destruct e as [pm|i|i|i].
  - simpl in Hstep. destruct (observe pm nm) as [v|] eqn:Hv;
      simplify_eq; [|done].
    rewrite GalleryFacts.pinState_setPinState.
    destruct pm as [m|]; [|done]. simpl in Hv. unfold pinStates.
    destruct (isPinned m nm); [|case_bool_decide]; simplify_eq;
      rewrite !elem_of_cons; auto 10.
  - destruct (probe_event_shape _ _ _ _ Hstep eq_refl) as [_ [->| ->]];
      [done|unfold pinStates; rewrite !elem_of_cons; auto 10].
  - destruct (probe_event_shape _ _ _ _ Hstep eq_refl) as [_ [->| ->]];
      [done|unfold pinStates; rewrite !elem_of_cons; auto 10].
  - destruct (probe_event_shape _ _ _ _ Hstep eq_refl) as [_ [->| ->]];
      [done|unfold pinStates; rewrite !elem_of_cons; auto 10].
Qed.

(** X1: in a run from the mount, [pinState] is still the initial [null]
    exactly when every callback so far was an observation without a pinning
    manager; and then no probe has started. *)
Theorem untracked_iff_no_manager nm es c :
  run nm mount es = Some c →
  (pinState c = None ↔ Forall (λ e, e = Observed None) es) ∧
  (pinState c = None → probes c = []).
Proof.
  assert (∀ c0, pinState c0 = None → probes c0 = [] →
            run nm c0 es = Some c →
            (pinState c = None ↔ Forall (λ e, e = Observed None) es) ∧
            (pinState c = None → probes c = [])) as H.
  { induction es as [|e es IH]; intros c0 Hs Hp Hrun; simpl in Hrun.
    - simplify_eq. split; [|done]. split; [by constructor|done].
    - destruct (step nm c0 e) as [c1|] eqn:Hstep; [|done].
      destruct e as [[m|]|i|i|i];
        try (by simpl in Hstep; rewrite Hp in Hstep).
      + assert (is_Some (pinState c)) as [v Hv].
        { eapply run_pinState_is_Some; [done|]. cbn [step] in Hstep.
          destruct (observe (Some m) nm) as [v|] eqn:Hv.
          - simplify_eq. by rewrite GalleryFacts.pinState_setPinState.
          - simpl in Hv. destruct (isPinned m nm); [done|].
            by case_bool_decide. }
        rewrite Hv. split; [|done]. split; [done|].
        intros Hall. by inversion Hall.
      + simpl in Hstep. simplify_eq.
        destruct (IH _ Hs Hp Hrun) as [[H1 H2] H3].
        split; [|done]. split.
        * intros Hn. constructor; [done|by apply H1].
        * intros Hall. inversion Hall. by apply H2. }
  intros Hrun. by apply (H mount).
Qed.

Lemma untracked_iff_no_manager_witness :
  (pinState mount = None ↔
   Forall (λ e, e = Observed None) [Observed None; Observed None]) ∧
  (pinState mount = None → probes mount = []).
Proof.
  apply (untracked_iff_no_manager "k" [Observed None; Observed None] mount).
  reflexivity.
Defined.

(** X2: in a run from the mount, [pinState] is [null] or one of the four
    state constants, and the [success] of a probe is set only once its
    preload has settled. *)
Theorem tracker_invariants nm es c :
  run nm mount es = Some c →
  pinState c ∈ pinStates ∧
  Forall (λ p, success p = true → preloadPending p = false) (probes c).
Proof.
  assert (∀ c0, pinState c0 ∈ pinStates → run nm c0 es = Some c →
            pinState c ∈ pinStates) as H.
  { induction es as [|e es IH]; intros c0 H0 Hr; simpl in Hr.
    - by simplify_eq.
    - destruct (step nm c0 e) as [c1|] eqn:Hstep; [|done].
      eapply IH; [|done]. by eapply step_pinStates. }
  intros Hrun. split.
  - refine (H mount _ Hrun). by left.
  - assert (Forall unsettledUnset (probes c)) as Hwf.
    { eapply GalleryFacts.run_unsettledUnset; [|exact Hrun]. constructor. }
    eapply Forall_impl; [exact Hwf|]. intros p Hp Hs.
    unfold unsettledUnset in Hp. destruct (preloadPending p); [|done].
    rewrite Hp in Hs; done.
Qed.

Lemma tracker_invariants_witness :
  pinState (withProbe STATE_PINNED (settledProbe true true)) ∈ pinStates ∧
  Forall (λ p, success p = true → preloadPending p = false)
    (probes (withProbe STATE_PINNED (settledProbe true true))).
Proof.
  apply (tracker_invariants "k" resolvedThenPinned). vm_compute. reflexivity.
Defined.

(** X3: a callback starts a probe exactly when it moves [pinState] into
    [STATE_PINNING] from another value: then one fresh probe is added at the
    end; otherwise the number of probes stays. *)
Theorem probe_started_on_entering_pinning nm c e c' :
  step nm c e = Some c' →
  (pinState c ≠ Some STATE_PINNING → pinState c' = Some STATE_PINNING →
     probes c' = probes c ++ [freshProbe]) ∧
  (pinState c = Some STATE_PINNING ∨ pinState c' ≠ Some STATE_PINNING →
     length (probes c') = length (probes c)).
Proof.
  intros Hstep. destruct (isProbeEvent e) eqn:He.
  - destruct (probe_event_shape _ _ _ _ Hstep He) as [Hlen Hs]. split.
    + intros Hc Hc'. destruct Hs as [Hs|Hs]; rewrite Hs in Hc'; [done|].
      discriminate Hc'.
    + done.
  - destruct e as [pm| | |]; try done. simpl in Hstep.
    destruct (observe pm nm) as [v|]; simplify_eq.
    + rewrite GalleryFacts.pinState_setPinState, setPinState_probes. split.
      * intros Hc [= ->]. by rewrite bool_decide_eq_true_2.
      * intros Hc. rewrite bool_decide_eq_false_2.
        { by rewrite app_nil_r. }
        intros [Hne ->]. by destruct Hc.
    + split; [by intros ??|done].
Qed.

Lemma probe_started_on_entering_pinning_witness :
  probes (withProbe STATE_PINNING freshProbe) = probes mount ++ [freshProbe] ∧
  length (probes (withProbe STATE_PINNED freshProbe))
    = length (probes (withProbe STATE_PINNING freshProbe)).
Proof.
  split.
  - apply (probe_started_on_entering_pinning "k" mount
             (Observed (Some pinningInProgress))
             (withProbe STATE_PINNING freshProbe)); [|done..].
    vm_compute. reflexivity.
  - apply (probe_started_on_entering_pinning "k"
             (withProbe STATE_PINNING freshProbe)
             (Observed (Some pinnedAndFailed))
             (withProbe STATE_PINNED freshProbe)); [|by left].
    vm_compute. reflexivity.
Defined.

(** X4: observing the same pinning manager twice in a row is the same as
    observing it once: the second observation changes neither the pin state
    nor the probes. *)
Theorem repeated_observation_is_idle nm c pm c1 :
  step nm c (Observed pm) = Some c1 →
  step nm c1 (Observed pm) = Some c1.
Proof.
  simpl. destruct (observe pm nm) as [v|]; intros ?; simplify_eq; [|done].
  f_equal. unfold setPinState at 1.
  by rewrite bool_decide_eq_true_2
    by apply GalleryFacts.pinState_setPinState.
Qed.

Lemma repeated_observation_is_idle_witness :
  step "k" (withProbe STATE_PINNING freshProbe)
    (Observed (Some pinningInProgress))
    = Some (withProbe STATE_PINNING freshProbe).
Proof.
  apply (repeated_observation_is_idle "k" mount). vm_compute. reflexivity.
Defined.

(** X5: in a run from the mount, when the timer of a probe fires while its
    preload is still outstanding, the callback runs and the pin state
    becomes [STATE_NOT_FOUND], whatever it was. *)
Theorem timer_before_preload_sets_not_found nm es c i p :
  run nm mount es = Some c →
  probes c !! i = Some p →
  preloadPending p = true → timerPending p = true →
  ∃ c', step nm c (TimerFired i) = Some c' ∧
        pinState c' = Some STATE_NOT_FOUND ∧
        length (probes c') = length (probes c).
Proof.
  intros Hrun Hi Hp Ht.
  assert (success p = false) as Hs.
  { assert (Forall unsettledUnset (probes c)) as Hwf.
    { eapply GalleryFacts.run_unsettledUnset; [|exact Hrun]. constructor. }
    by apply (Forall_lookup_1 _ _ _ _ Hwf Hi). }
  simpl. rewrite Hi, Ht. unfold timerCallback. rewrite Hs. simpl.
  eexists. split; [done|].
  rewrite GalleryFacts.pinState_setPinState,
    GalleryFacts.probes_setPinState_not_found. simpl.
  by rewrite length_insert.
Qed.

Lemma timer_before_preload_sets_not_found_witness :
  ∃ c', step "k" (withProbe STATE_PINNED freshProbe) (TimerFired 0%nat)
          = Some c' ∧
        pinState c' = Some STATE_NOT_FOUND ∧
        length (probes c') = length (probes (withProbe STATE_PINNED freshProbe)).
Proof.
  apply (timer_before_preload_sets_not_found "k" pinnedWhileProbing
           (withProbe STATE_PINNED freshProbe) 0%nat freshProbe);
    vm_compute; reflexivity.
Defined.

End TrackerFacts.

(** ** Facts about what is rendered and about the handlers *)

Module ViewFacts.
Import Gallery GalleryView Samples.

(** X6: "Retrigger Pin" can be reached exactly when the item is hovered or
    being edited and its status column reads "Pin Failed". *)
Theorem retrigger_offered_iff_pin_failed isRemoving isHovered editing s :
  retriggerOffered isRemoving isHovered editing s = true ↔
  isHovered || editing = true ∧
  text <$> statusView isRemoving s = Some "Pin Failed".
Proof.
  unfold retriggerOffered, shouldHighlight, retriggerDisplayed, statusView.
  destruct s as [z|]; simpl.
  - destruct (Z.eqb_spec z STATE_FAILED) as [->|Hz].
    + destruct isRemoving, isHovered, editing; simpl;
        (split; [intros H; try discriminate H; by split
                |intros [H1 H2]; try discriminate H1; try discriminate H2;
                 done]).
    + destruct isRemoving, isHovered, editing, (z =? STATE_PINNING),
        (z =? STATE_NOT_FOUND); simpl;
        (split; [intros H; try discriminate H; by split
                |intros [H1 H2]; try discriminate H1; try discriminate H2;
                 done]).
  - destruct isRemoving, isHovered, editing; simpl;
      (split; [intros H; try discriminate H; by split
              |intros [H1 H2]; try discriminate H1; try discriminate H2;
               done]).
Qed.

(** X7: in a run from the mount, an item that is not being removed shows
    no status text exactly when its pin state is still [null] or is
    [STATE_PINNED]. *)
Theorem no_status_iff_untracked_or_pinned nm es c :
  run nm mount es = Some c →
  (statusView false (pinState c) = None ↔
   pinState c = None ∨ pinState c = Some STATE_PINNED).
Proof.
  intros Hrun.
  assert (pinState c ∈ pinStates) as Hin.
  { assert (∀ c0, pinState c0 ∈ pinStates → run nm c0 es = Some c →
              pinState c ∈ pinStates) as H.
    { clear Hrun. induction es as [|e es IH]; intros c0 H0 Hr; simpl in Hr.
      - by simplify_eq.
      - destruct (step nm c0 e) as [c1|] eqn:Hstep; [|done].
        eapply IH; [|done]. by eapply TrackerFacts.step_pinStates. }
    refine (H mount _ Hrun). by left. }
  unfold pinStates in Hin. rewrite !elem_of_cons, elem_of_nil in Hin.
  destruct Hin as [->|[->|[->|[->|[->|[]]]]]]; simpl;
    (split; [intros H; try discriminate H; auto
            |intros [H|H]; try discriminate H; done]).
Qed.

Lemma no_status_iff_untracked_or_pinned_witness :
  statusView false (pinState (withProbe STATE_PINNED (settledProbe true true)))
    = None ↔
  pinState (withProbe STATE_PINNED (settledProbe true true)) = None ∨
  pinState (withProbe STATE_PINNED (settledProbe true true))
    = Some STATE_PINNED.
Proof.
  apply (no_status_iff_untracked_or_pinned "k" resolvedThenPinned).
  vm_compute. reflexivity.
Defined.



Lemma dash_separated_inj (s1 s2 c1 c2 : string) :
  dashFree s1 = true → dashFree s2 = true →
  s1 +:+ "-" +:+ c1 = s2 +:+ "-" +:+ c2 → s1 = s2 ∧ c1 = c2.
Proof.
  revert s2. induction s1 as [|a s1 IH]; intros [|b s2] Ha Hb Heq;
    cbn in Ha, Hb, Heq.
  - by simplify_eq.
  - by simplify_eq.
  - by simplify_eq.
  - injection Heq as -> Heq.
    apply andb_prop in Ha as [_ Ha]. apply andb_prop in Hb as [_ Hb].
    by destruct (IH s2 Ha Hb Heq) as [-> ->].
Qed.

(** X21: two items whose stream ids hold no dash have the same identifier
    only when they have the same stream id and the same content
    identifier. *)
Theorem name_injective (m1 m2 : StreamManager) :
  dashFree (getStreamId m1) = true → dashFree (getStreamId m2) = true →
  name m1 = name m2 →
  getStreamId m1 = getStreamId m2 ∧ cid m1 = cid m2.
Proof. unfold name. apply dash_separated_inj. Qed.

Lemma name_injective_witness :
  getStreamId {| getStreamId := "kjzl6"; contentUrl := "ipfs://bafy" |}
    = getStreamId {| getStreamId := "kjzl6"; contentUrl := "bafy" |} ∧
  cid {| getStreamId := "kjzl6"; contentUrl := "ipfs://bafy" |}
    = cid {| getStreamId := "kjzl6"; contentUrl := "bafy" |}.
Proof.
  apply (name_injective
           {| getStreamId := "kjzl6"; contentUrl := "ipfs://bafy" |}
           {| getStreamId := "kjzl6"; contentUrl := "bafy" |}); reflexivity.
Defined.

End ViewFacts.

(** ** Further facts about the parcel status resolution *)

Module ResolverFacts.
Import Recent Recent.Query.

Section Resolver.
Context {Coord Point : Type}.
Context (bboxCenter : Coord → Coord → Coord → Coord → Point).
Implicit Types (parcel : GeoWebParcel Coord) (env : @Env Coord).
Implicit Types (st : Locals) (p : Parcel Point).

(** X9: the chain is rejected with the reason of the first of its three
    reads, in the order of the chain, that is rejected, whatever the later
    reads would answer; it is fulfilled only when all three are. *)
Theorem chain_rejected_by_first_failing_read env parcel st0 :
  (∀ r, shouldBidPeriodEndEarly (connect env (licenseDiamond parcel))
          = Js.Rejected r →
        promiseChain bboxCenter env parcel st0 = Js.Rejected r) ∧
  (∀ early r,
     shouldBidPeriodEndEarly (connect env (licenseDiamond parcel))
       = Js.Fulfilled early →
     isPayerBidActive (connect env (licenseDiamond parcel))
       = Js.Rejected r →
     promiseChain bboxCenter env parcel st0 = Js.Rejected r) ∧
  (∀ early active r,
     shouldBidPeriodEndEarly (connect env (licenseDiamond parcel))
       = Js.Fulfilled early →
     isPayerBidActive (connect env (licenseDiamond parcel))
       = Js.Fulfilled active →
     getParcelContent env (id parcel) (licenseOwner parcel)
       = Js.Rejected r →
     promiseChain bboxCenter env parcel st0 = Js.Rejected r) ∧
  (∀ p, promiseChain bboxCenter env parcel st0 = Js.Fulfilled p →
     ∃ early active content,
       shouldBidPeriodEndEarly (connect env (licenseDiamond parcel))
         = Js.Fulfilled early ∧
       isPayerBidActive (connect env (licenseDiamond parcel))
         = Js.Fulfilled active ∧
       getParcelContent env (id parcel) (licenseOwner parcel)
         = Js.Fulfilled content).
Proof.
  unfold promiseChain, afterForeclosure, afterEarlyEnd.
  split; [|split; [|split]].
  - by intros r ->.
  - by intros early r -> ->.
  - by intros early active r -> -> ->.
  - intros p.
    destruct (shouldBidPeriodEndEarly _) as [early|]; [|done].
    destruct (isPayerBidActive _) as [active|]; [|done].
    destruct (getParcelContent _ _ _) as [content|]; [|done].
    intros _. by exists early, active, content.
Qed.

(** X10: a row is pushed with status [InForeclosure] exactly when the
    payer-bid read answered [false]: steps 1 and 2 never assign it. *)
Theorem in_foreclosure_iff_payer_bid_inactive env parcel p :
  loopBody bboxCenter env parcel = Some (Js.Fulfilled p) →
  (status p = InForeclosure ↔
   isPayerBidActive (connect env (licenseDiamond parcel))
     = Js.Fulfilled false).
Proof.
  intros Hp.
  destruct (RecentFacts.loopBody_Fulfilled _ _ _ _ Hp)
    as (st0 & early & active & content & H0 & _ & Ha & _ & _ & Hs & _).
  rewrite Ha, Hs. destruct active; simpl; [|done].
  split; [|done]. intros Hst. exfalso.
  destruct (RecentFacts.initialStatus_Some _ _ H0)
    as [[-> Hzero]|(pb & Hpb & Hrate & ->)].
  - rewrite RecentFacts.onShouldBidPeriodEndEarly_idle in Hst; [done|].
    intros pb Hpb. rewrite (Hzero pb Hpb). lia.
  - unfold onShouldBidPeriodEndEarly in Hst. rewrite Hpb in Hst.
    destruct (contributionRate pb >? 0); [|done].
    by destruct (isPastDeadline pb (dateNow env parcel) || early).
Qed.

(** X11: with an active payer bid, the status of the row is [Valid] when
    there is no pending bid of non-zero contribution rate, [NeedsTransfer]
    when there is a pending bid of positive rate whose deadline is not
    after the clock or the early-end read answered [true], and
    [OutstandingBid] when there is one whose deadline is still ahead and the
    read answered [false]. *)
Theorem status_with_active_payer_bid env parcel p early :
  loopBody bboxCenter env parcel = Some (Js.Fulfilled p) →
  shouldBidPeriodEndEarly (connect env (licenseDiamond parcel))
    = Js.Fulfilled early →
  isPayerBidActive (connect env (licenseDiamond parcel))
    = Js.Fulfilled true →
  (status p = Valid ↔
   ∀ pb, pendingBid parcel = Some pb → contributionRate pb = 0) ∧
  (status p = NeedsTransfer ↔
   ∃ pb, pendingBid parcel = Some pb ∧ 0 < contributionRate pb ∧
         (deadline pb * 1000 ≤ dateNow env parcel ∨ early = true)) ∧
  (status p = OutstandingBid ↔
   ∃ pb, pendingBid parcel = Some pb ∧ 0 < contributionRate pb ∧
         dateNow env parcel < deadline pb * 1000 ∧ early = false).
Proof.
  intros Hp Hearly Hactive.
  destruct (RecentFacts.loopBody_Fulfilled _ _ _ _ Hp)
    as (st0 & early' & active & content & H0 & He & Ha & _ & _ & Hs & _).
  rewrite Hearly in He. injection He as <-.
  rewrite Hactive in Ha. injection Ha as <-.
  rewrite Hs. simpl. clear Hs Hp.
  destruct (RecentFacts.initialStatus_Some _ _ H0)
    as [[-> Hzero]|(pb & Hpb & Hrate & ->)].
  - rewrite RecentFacts.onShouldBidPeriodEndEarly_idle
      by (intros pb Hpb; rewrite (Hzero pb Hpb); lia).
    simpl. split; [done|]. split.
    + split; [done|]. intros (pb & Hpb & Hrate & _).
      rewrite (Hzero pb Hpb) in Hrate. lia.
    + split; [done|]. intros (pb & Hpb & Hrate & _).
      rewrite (Hzero pb Hpb) in Hrate. lia.
  - unfold onShouldBidPeriodEndEarly, isPastDeadline. rewrite Hpb.
    destruct (Z.gtb_spec (contributionRate pb) 0); [|lia].
    destruct (Z.leb_spec (deadline pb * 1000) (dateNow env parcel));
      destruct early; simpl.
    all: split; [split; [done|intros Hz; specialize (Hz pb eq_refl); lia]|].
    all: split.
    all: try (split; [intros _; exists pb; by auto|done]).
    all: try (split; [done|intros (pb' & Hpb' & _ & Hd & He);
                            simplify_eq; try done; lia]).
    all: try (split; [done|intros (pb' & Hpb' & _ & [Hd|He]);
                            simplify_eq; try done; lia]).
Qed.

(** X12: whatever the status, the price of the row is that of the pending
    bid when its contribution rate is positive, and that of the current bid
    when there is no pending bid of non-zero rate. *)
Theorem price_follows_pending_bid env parcel p :
  loopBody bboxCenter env parcel = Some (Js.Fulfilled p) →
  (∀ pb, pendingBid parcel = Some pb → 0 < contributionRate pb →
     price p = forSalePrice pb) ∧
  ((∀ pb, pendingBid parcel = Some pb → contributionRate pb = 0) →
     price p = forSalePrice (currentBid parcel)).
Proof.
  intros Hp.
  destruct (RecentFacts.loopBody_Fulfilled _ _ _ _ Hp)
    as (st0 & early & active & content & H0 & _ & _ & _ & _ & _ & Hprice).
  rewrite Hprice. clear Hprice Hp.
  destruct (RecentFacts.initialStatus_Some _ _ H0)
    as [[-> Hzero]|(pb & Hpb & Hrate & ->)].
  - rewrite RecentFacts.onShouldBidPeriodEndEarly_idle
      by (intros pb Hpb; rewrite (Hzero pb Hpb); lia).
    split; [|done]. intros pb Hpb Hrate.
    rewrite (Hzero pb Hpb) in Hrate. lia.
  - unfold onShouldBidPeriodEndEarly. rewrite Hpb.
    destruct (Z.gtb_spec (contributionRate pb) 0); [|lia]. split.
    + intros pb' [= <-] _.
      by destruct (isPastDeadline pb (dateNow env parcel) || early).
    + intros Hz. specialize (Hz pb eq_refl). lia.
Qed.

End Resolver.

(** X13: the name of a row is never empty: it is the name held by the
    parcel content when there is one and it is not empty, and "Parcel "
    followed by the parcel id otherwise. *)
Theorem displayName_never_empty (content : option ParcelContent)
    (pid : string) :
  displayName content pid ≠ EmptyString ∧
  (∀ n, content = Some {| content_name := Some n |} → n ≠ EmptyString →
     displayName content pid = n) ∧
  (content = None ∨ content = Some {| content_name := None |} ∨
   content = Some {| content_name := Some EmptyString |} →
     displayName content pid = "Parcel " +:+ pid).
Proof.
  split; [|split].
  - by destruct content as [[[[|c n]|]]|].
  - intros n -> Hn. by destruct n.
  - by intros [->|[->| ->]].
Qed.

(** X14: once step 2 has made a parcel [NeedsTransfer] at some reading of
    the clock, it makes it [NeedsTransfer] at every later reading. *)
Theorem needs_transfer_persists (pending : option Bid) (now now' : Z)
    (early : bool) (st : Locals) :
  now ≤ now' →
  (onShouldBidPeriodEndEarly pending now early st).1 = NeedsTransfer →
  (onShouldBidPeriodEndEarly pending now' early st).1 = NeedsTransfer.
Proof.
  intros Hle. unfold onShouldBidPeriodEndEarly, isPastDeadline.
  destruct pending as [pb|]; [|done].
  destruct (contributionRate pb >? 0); [|done].
  destruct (Z.leb_spec (deadline pb * 1000) now),
    (Z.leb_spec (deadline pb * 1000) now'); try done; lia.
Qed.

Import Samples Scenarios.

Lemma chain_rejected_by_first_failing_read_witness :
  promiseChain corners (envPayerReadFails true 0) (parcelWith None)
    (Valid, 100) = Js.Rejected "call revert".
Proof.
  destruct (chain_rejected_by_first_failing_read corners
              (envPayerReadFails true 0) (parcelWith None) (Valid, 100))
    as (_ & H & _).
  apply (H true "call revert"); reflexivity.
Defined.

Lemma in_foreclosure_iff_payer_bid_inactive_witness :
  status (rowOf InForeclosure 7) = InForeclosure ↔
  isPayerBidActive
    (connect (env true false 0)
       (licenseDiamond (parcelWith (Some (bid 7 5 10)))))
    = Js.Fulfilled false.
Proof.
  apply (in_foreclosure_iff_payer_bid_inactive corners (env true false 0)
           (parcelWith (Some (bid 7 5 10))) (rowOf InForeclosure 7)).
  reflexivity.
Defined.

Lemma status_with_active_payer_bid_witness :
  status (rowOf NeedsTransfer 7) = NeedsTransfer ↔
  ∃ pb, pendingBid (parcelWith (Some (bid 7 5 10))) = Some pb ∧
        0 < contributionRate pb ∧
        (deadline pb * 1000
           ≤ dateNow (env true true 0) (parcelWith (Some (bid 7 5 10))) ∨
         true = true).
Proof.
  destruct (status_with_active_payer_bid corners (env true true 0)
              (parcelWith (Some (bid 7 5 10))) (rowOf NeedsTransfer 7) true)
    as (_ & H & _); [reflexivity..|]. exact H.
Defined.

Lemma price_follows_pending_bid_witness :
  price (rowOf OutstandingBid 7) = forSalePrice (bid 7 5 10).
Proof.
  destruct (price_follows_pending_bid corners (env false true 0)
              (parcelWith (Some (bid 7 5 10))) (rowOf OutstandingBid 7))
    as [H _]; [reflexivity|].
  apply H; [reflexivity|simpl; lia].
Defined.

Lemma displayName_never_empty_witness :
  displayName (Some {| content_name := Some "Lot 7" |}) "0x1" = "Lot 7" ∧
  displayName (Some {| content_name := Some EmptyString |}) "0x1"
    = "Parcel 0x1".
Proof.
  split.
  - destruct (displayName_never_empty
                (Some {| content_name := Some "Lot 7" |}) "0x1")
      as (_ & H & _).
    apply H; [reflexivity|discriminate].
  - destruct (displayName_never_empty
                (Some {| content_name := Some EmptyString |}) "0x1")
      as (_ & _ & H).
    apply H. right. right. reflexivity.
Defined.

Lemma needs_transfer_persists_witness :
  (onShouldBidPeriodEndEarly (Some (bid 7 5 10)) 604810001 false
     (OutstandingBid, 7)).1 = NeedsTransfer.
Proof.
  apply (needs_transfer_persists (Some (bid 7 5 10)) 604810000 604810001);
    [lia|reflexivity].
Defined.

End ResolverFacts.

(** ** Facts about the batch *)

Module BatchFacts.
Import Recent Recent.Query RecentBatch.

Lemma promiseAll_Some {A} (ps : list (Js.Promise A)) l :
  promiseAll ps = Some l ↔ ps = Js.Fulfilled <$> l.
Proof.
  revert l. induction ps as [|[a|r] ps IH]; intros l; simpl.
  - split; [by intros [= <-]|]. by destruct l.
  - destruct (promiseAll ps) as [k|] eqn:Hk.
    + split.
      * intros [= <-]. simpl. f_equal. by apply IH.
      * destruct l as [|b l]; [done|]. intros [= -> Hps].
        apply IH in Hps. by simplify_eq.
    + split; [done|]. destruct l as [|b l]; [done|]. intros [= -> Hps].
      by apply IH in Hps.
  - split; [done|]. by destruct l.
Qed.

Lemma promiseAll_None {A} (ps : list (Js.Promise A)) :
  promiseAll ps = None ↔ ∃ r, Js.Rejected r ∈ ps.
Proof.
  induction ps as [|[a|r] ps IH]; simpl.
  - split; [done|]. intros [r Hr]. by apply elem_of_nil in Hr.
  - destruct (promiseAll ps) as [k|].
    + split; [done|]. intros [r Hr].
      apply elem_of_cons in Hr as [[=]|Hr].
      assert (Some k = None) as [=]. apply IH. by exists r.
    + split; [|done]. intros _. destruct IH as [[r Hr] _]; [done|].
      exists r. by right.
  - split; [|done]. intros _. exists r. by left.
Qed.

Lemma NoDup_fmap_inj {A B} (f : A → B) (l : list A) x y :
  NoDup (f <$> l) → x ∈ l → y ∈ l → f x = f y → x = y.
Proof.
  induction l as [|a l IH]; simpl; intros Hnd Hx Hy Hf.
  - by apply elem_of_nil in Hx.
  - apply NoDup_cons in Hnd as [Ha Hnd].
    apply elem_of_cons in Hx as [->|Hx]; apply elem_of_cons in Hy as [->|Hy].
    + done.
    + destruct Ha. rewrite Hf. by apply list_elem_of_fmap_2.
    + destruct Ha. rewrite <-Hf. by apply list_elem_of_fmap_2.
    + by apply IH.
Qed.

Section Sort.
Context {A : Type} (cmp : A → A → Z) (R : relation A).
(** An element that may stand after another is not moved in front of
    it. *)
Hypothesis cmp_keeps : ∀ x y, R x y → 0 ≤ cmp y x.


End Sort.

Section Effect.
Context {Coord Point : Type}.
Context (bboxCenter : Coord → Coord → Coord → Coord → Point).
Implicit Types (parcel : GeoWebParcel Coord) (env : @Env Coord).
Implicit Types (p : Parcel Point) (o : @Outcome Point).

Lemma descending_trans : Transitive (@descending Point).
Proof. intros a b c. unfold descending. lia. Qed.

Lemma compareParcels_neg (x y : Parcel Point) :
  compareParcels x y < 0 → descending x y.
Proof.
  unfold compareParcels, descending.
  destruct (Z.gtb_spec (Recent.createdAtBlock x) (Recent.createdAtBlock y)); lia.
Qed.

Lemma compareParcels_nonneg (x y : Parcel Point) :
  0 ≤ compareParcels x y → descending y x.
Proof.
  unfold compareParcels, descending.
  destruct (Z.gtb_spec (Recent.createdAtBlock x) (Recent.createdAtBlock y)); lia.
Qed.


Lemma sortParcels_Sorted (l : list (Parcel Point)) :
  Sorted descending (sortParcels l).
Proof.
  apply JsFacts.sort_Sorted;
    [apply compareParcels_neg|apply compareParcels_nonneg].
Qed.

(** A pushed row keeps the id and the creation block of its record. *)
Lemma loopBody_row env parcel p :
  loopBody bboxCenter env parcel = Some (Js.Fulfilled p) →
  parcelId p = id parcel ∧ Recent.createdAtBlock p = Query.createdAtBlock parcel.
Proof.
  unfold loopBody, promiseChain, afterForeclosure, afterEarlyEnd.
  destruct (initialStatus parcel) as [st0|]; [|done].
  destruct (shouldBidPeriodEndEarly _) as [early|]; [|done].
  destruct (isPayerBidActive _) as [active|]; [|done].
  destruct (getParcelContent _ _ _) as [content|]; [|done].
  simpl. by intros [= <-].
Qed.

Lemma promises_cons env parcel data :
  promises bboxCenter env (parcel :: data)
    = match loopBody bboxCenter env parcel with
      | Some chain => chain :: promises bboxCenter env data
      | None => promises bboxCenter env data
      end.
Proof. done. Qed.

(** The rows of a fulfilled batch come from the records, in their order,
    at most one for each. *)
Lemma pushed_rows env data : ∀ pushed,
  promiseAll (promises bboxCenter env data) = Some pushed →
  Forall (λ p, ∃ parcel, parcel ∈ data ∧
                 loopBody bboxCenter env parcel = Some (Js.Fulfilled p))
    pushed ∧
  (Recent.createdAtBlock <$> pushed)
    `sublist_of` (Query.createdAtBlock <$> data).
Proof.
  induction data as [|g data IH]; intros pushed.
  - intros [= <-]. split; constructor.
  - rewrite promises_cons, fmap_cons.
    destruct (loopBody bboxCenter env g) as [[p|r]|] eqn:Hg;
      cbn [promiseAll].
    + destruct (promiseAll (promises bboxCenter env data)) as [k|];
        [|done].
      intros [= <-]. destruct (IH k eq_refl) as [Hall Hsub]. split.
      * constructor; [exists g; split; [by left|done]|].
        eapply Forall_impl; [exact Hall|]. intros q (parcel & Hin & Hq).
        exists parcel. split; [by right|done].
      * rewrite fmap_cons. destruct (loopBody_row _ _ _ Hg) as [_ ->].
        by apply sublist_skip.
    + done.
    + intros Hk. destruct (IH pushed Hk) as [Hall Hsub]. split.
      * eapply Forall_impl; [exact Hall|]. intros q (parcel & Hin & Hq).
        exists parcel. split; [by right|done].
      * by apply sublist_cons.
Qed.

Lemma promises_kept env data :
  promises bboxCenter env (kept data) = promises bboxCenter env data.
Proof.
  induction data as [|g data IH]; [done|]. unfold kept in *.
  rewrite filter_cons, (promises_cons env g data).
  destruct (decide (is_Some (initialStatus g))) as [[st Hst]|Hno].
  - by rewrite promises_cons, IH.
  - rewrite IH. unfold loopBody.
    destruct (initialStatus g) as [st|]; [|done].
    destruct Hno. by exists st.
Qed.

Lemma sortParcels_Permutation_eq (l1 l2 : list (Parcel Point)) :
  NoDup (Recent.createdAtBlock <$> l1) → l1 ≡ₚ l2 →
  sortParcels l1 = sortParcels l2.
Proof.
  intros Hnd Hperm.
  assert (sortParcels l1 ≡ₚ l1) as H1 by apply JsFacts.sort_Permutation.
  assert (sortParcels l2 ≡ₚ l2) as H2 by apply JsFacts.sort_Permutation.
  apply (@Sorted_unique_strong _ descending descending_trans);
    [|apply sortParcels_Sorted..|by rewrite H1, H2].
  intros x y Hx Hy Hxy Hyx. rewrite H1 in Hx. rewrite H2, <-Hperm in Hy.
  apply (NoDup_fmap_inj Recent.createdAtBlock l1); [done..|].
  unfold descending in *. lia.
Qed.

(** X15: with a page that is not empty and the component still mounted,
    the effect either leaves [parcels] alone, and then some chain was
    rejected, or sets it to all the pushed rows, one for each chain, ordered
    by creation block descending; every row carries the id and the creation
    block of a record of the page, and there are no more rows than
    records. *)
Theorem batch_shows_all_rows_sorted env data o :
  data ≠ [] →
  parcelsEffect bboxCenter env (Some data) true o →
  (o = Untouched ∧ ∃ r, Js.Rejected r ∈ promises bboxCenter env data) ∨
  (∃ rows,
     o = SetParcels rows ∧
     promises bboxCenter env data ≡ₚ Js.Fulfilled <$> rows ∧
     Sorted descending rows ∧
     (length rows ≤ length data)%nat ∧
     Forall (λ p, ∃ parcel, parcel ∈ data ∧ parcelId p = id parcel ∧
                    Recent.createdAtBlock p = Query.createdAtBlock parcel)
       rows).
Proof.
  intros Hne. destruct data as [|g data]; [done|]. unfold parcelsEffect.
  destruct (promiseAll _) as [pushed|] eqn:Hall.
  - intros (l & Hperm & ->). right. exists (sortParcels l).
    assert (sortParcels l ≡ₚ pushed) as Hrows.
    { by rewrite <-Hperm; apply JsFacts.sort_Permutation. }
    destruct (pushed_rows _ _ _ Hall) as [Hfrom Hsub].
    split; [done|]. split.
    { apply promiseAll_Some in Hall. by rewrite Hall, Hrows. }
    split; [apply sortParcels_Sorted|]. split.
    + rewrite Hrows. apply sublist_length in Hsub.
      by rewrite !length_fmap in Hsub.
    + rewrite Hrows. eapply Forall_impl; [exact Hfrom|].
      intros p (parcel & Hin & Hp).
      destruct (loopBody_row _ _ _ Hp) as [Hid Hblock]. by exists parcel.
  - intros ->. left. split; [done|]. by apply promiseAll_None.
Qed.

(** X16: when no two records of the page share a creation block, what the
    effect does is fixed by the page and the reads: the order in which the
    chains complete has no part in it. *)
Theorem batch_order_fixed_by_distinct_blocks env data isMounted o1 o2 :
  NoDup (Query.createdAtBlock <$> data) →
  parcelsEffect bboxCenter env (Some data) isMounted o1 →
  parcelsEffect bboxCenter env (Some data) isMounted o2 →
  o1 = o2.
Proof.
  intros Hnd. destruct data as [|g data]; unfold parcelsEffect.
  { by intros -> ->. }
  destruct (promiseAll _) as [pushed|] eqn:Hall; [|by intros -> ->].
  intros (l1 & H1 & ->) (l2 & H2 & ->). unfold onAllFulfilled.
  destruct isMounted; [|done]. f_equal.
  apply sortParcels_Permutation_eq; [|by rewrite H1, H2].
  rewrite H1. destruct (pushed_rows _ _ _ Hall) as [_ Hsub].
  by eapply sublist_NoDup.
Qed.

(** X17: one rejected chain is enough for the effect to leave [parcels]
    alone, however many other chains are fulfilled. *)
Theorem batch_aborted_by_one_rejection env data parcel st0 r isMounted o :
  parcel ∈ data →
  initialStatus parcel = Some st0 →
  promiseChain bboxCenter env parcel st0 = Js.Rejected r →
  parcelsEffect bboxCenter env (Some data) isMounted o →
  o = Untouched.
Proof.
  intros Hin H0 Hr.
  assert (promiseAll (promises bboxCenter env data) = None) as Hnone.
  { apply promiseAll_None. exists r. unfold promises.
    apply list_elem_of_omap. exists parcel. split; [done|].
    unfold loopBody. by rewrite H0, Hr. }
  destruct data as [|g data]; [by apply elem_of_nil in Hin|].
  unfold parcelsEffect. by rewrite Hnone.
Qed.

(** X18: the effect does nothing while the query has no data and nothing
    once the component is unmounted before a page that is not empty has
    settled; an empty page sets the empty list at once, mounted or not. *)
Theorem effect_without_rows env data isMounted o :
  (parcelsEffect bboxCenter env None isMounted o → o = Untouched) ∧
  (data ≠ [] → parcelsEffect bboxCenter env (Some data) false o →
   o = Untouched) ∧
  (parcelsEffect bboxCenter env (Some []) isMounted o → o = SetParcels []).
Proof.
  split; [done|]. split; [|done]. intros Hne.
  destruct data as [|g data]; [done|]. unfold parcelsEffect.
  destruct (promiseAll _) as [pushed|]; [|done]. by intros (l & _ & ->).
Qed.


(** X20: with the component mounted, the records that step 1 skips leave
    no trace: the effect does to [parcels] what it would do had the page
    not held them. *)
Theorem skipped_records_leave_no_trace env data o :
  parcelsEffect bboxCenter env (Some data) true o ↔
  parcelsEffect bboxCenter env (Some (kept data)) true o.
Proof.
  pose proof (promises_kept env data) as Hk.
  destruct data as [|g data]; [done|].
  destruct (kept (g :: data)) as [|g' data'] eqn:Hkept.
  - unfold parcelsEffect. rewrite <-Hk. simpl. split.
    + intros (l & Hl & ->). apply Permutation_nil_r in Hl. by subst.
    + intros ->. by exists [].
  - unfold parcelsEffect. by rewrite <-Hk.
Qed.

End Effect.

Import Samples Scenarios.

Lemma batch_shows_all_rows_sorted_witness :
  (SetParcels [rowAt 9; rowAt 5; rowAt 1] = Untouched ∧
   ∃ r, Js.Rejected r
          ∈ promises corners (env false true 0)
              [parcelAt 5; parcelAt 9; parcelAt 1]) ∨
  (∃ rows,
     SetParcels [rowAt 9; rowAt 5; rowAt 1] = SetParcels rows ∧
     promises corners (env false true 0) [parcelAt 5; parcelAt 9; parcelAt 1]
       ≡ₚ Js.Fulfilled <$> rows ∧
     Sorted descending rows ∧
     (length rows ≤ length [parcelAt 5; parcelAt 9; parcelAt 1])%nat ∧
     Forall (λ p, ∃ parcel, parcel ∈ [parcelAt 5; parcelAt 9; parcelAt 1] ∧
                    parcelId p = id parcel ∧
                    Recent.createdAtBlock p = Query.createdAtBlock parcel)
       rows).
Proof.
  apply (batch_shows_all_rows_sorted corners (env false true 0)
           [parcelAt 5; parcelAt 9; parcelAt 1]); [discriminate|].
  exists [rowAt 1; rowAt 5; rowAt 9]. split; [|reflexivity].
  apply perm_trans with [rowAt 5; rowAt 1; rowAt 9].
  - apply Permutation_swap.
  - apply perm_skip, Permutation_swap.
Defined.

Lemma batch_order_fixed_by_distinct_blocks_witness :
  onAllFulfilled true [rowAt 1; rowAt 5; rowAt 9]
    = onAllFulfilled true [rowAt 9; rowAt 1; rowAt 5].
Proof.
  apply (batch_order_fixed_by_distinct_blocks corners (env false true 0)
           [parcelAt 5; parcelAt 9; parcelAt 1] true).
  - repeat constructor; rewrite ?elem_of_cons, elem_of_nil;
      intros H; repeat destruct H as [H|H]; done.
  - exists [rowAt 1; rowAt 5; rowAt 9]. split; [|reflexivity].
    apply perm_trans with [rowAt 5; rowAt 1; rowAt 9].
    + apply Permutation_swap.
    + apply perm_skip, Permutation_swap.
  - exists [rowAt 9; rowAt 1; rowAt 5]. split; [|reflexivity].
    apply perm_trans with [rowAt 9; rowAt 5; rowAt 1].
    + apply perm_skip, Permutation_swap.
    + apply Permutation_swap.
Defined.

Lemma batch_aborted_by_one_rejection_witness :
  parcelsEffect corners (envPayerReadFails false 0)
    (Some [parcelAt 5; parcelAt 9]) true Untouched ∧
  @Untouched (Z * Z * Z * Z) = Untouched.
Proof.
  split; [reflexivity|].
  apply (batch_aborted_by_one_rejection corners (envPayerReadFails false 0)
           [parcelAt 5; parcelAt 9] (parcelAt 9) (Valid, 100) "call revert"
           true).
  - right. left.
  - reflexivity.
  - reflexivity.
  - reflexivity.
Defined.

Lemma effect_without_rows_witness :
  parcelsEffect corners (env false true 0) (Some [parcelAt 5]) false
    Untouched ∧
  @Untouched (Z * Z * Z * Z) = Untouched.
Proof.
  assert (parcelsEffect corners (env false true 0) (Some [parcelAt 5]) false
            Untouched) as H.
  { exists [rowAt 5]. split; reflexivity. }
  split; [exact H|].
  destruct (effect_without_rows corners (env false true 0) [parcelAt 5]
              false Untouched) as (_ & H2 & _).
  apply H2; [discriminate|exact H].
Defined.


End BatchFacts.
